(** * Phoenix playground: tool-call schemas and span-attribute extraction

    A shallow embedding of [app/src/schemas/toolCallSchemas.ts] and
    [app/src/pages/playground/playgroundUtils.ts].

    JavaScript values are modelled by the inductive type [value]; an object is
    the list of its own properties in insertion order.  The zod combinators the
    sources use ([z.string], [z.literal], [z.record], [z.array], [z.object]
    with its unknown-key policy, [.optional], [.transform]) are embedded as
    functions from a value to an optional validated value, following the
    documented behaviour of zod 3: an object schema strips the keys it does not
    declare unless it is marked [.passthrough()], in which case it keeps them,
    except those that hold [undefined].  zod's special treatment of the key
    [__proto__] is not modelled. *)

From Stdlib Require Import List String Ascii Bool Arith ZArith Lia QArith.
Import ListNotations.
Set Warnings "-register-all".
Open Scope string_scope.
Open Scope list_scope.

(* ================================================================== *)
(** ** JavaScript values *)

Module JS.

Inductive value : Type :=
| VUndefined
| VNull
| VBool (b : bool)
| VNumber (q : Q)
| VString (s : string)
| VArray (l : list value)
| VObject (o : list (string * value)).

Definition object := list (string * value).

(** Own-property lookup: the first binding of [k]. *)
Fixpoint lookup (k : string) (o : object) : option value :=
  match o with
  | [] => None
  | (k', v) :: o' => if String.eqb k k' then Some v else lookup k o'
  end.

(** [k in o] *)
Definition has_key (k : string) (o : object) : bool :=
  match lookup k o with Some _ => true | None => false end.

(** [o[k]] on an object: [undefined] when the key is missing. *)
Definition get (o : object) (k : string) : value :=
  match lookup k o with Some v => v | None => VUndefined end.

(** [v.k] for a value the caller knows to be an object; any other value has no
    such property. *)
Definition prop (v : value) (k : string) : value :=
  match v with
  | VObject o => get o k
  | _ => VUndefined
  end.

(** [o[k] = x]: overwrite in place, or append a new last property. *)
Fixpoint set_prop (k : string) (x : value) (o : object) : object :=
  match o with
  | [] => [(k, x)]
  | (k', v) :: o' =>
      if String.eqb k k' then (k', x) :: o' else (k', v) :: set_prop k x o'
  end.

(** An object literal [{k1: v1, ..., kn: vn}]: properties are defined left to
    right, a repeated (computed) key overwrites the earlier value. *)
Definition literal (ps : list (string * value)) : object :=
  fold_left (fun o p => set_prop (fst p) (snd p) o) ps [].

(** [v == null] *)
Definition nullish (v : value) : bool :=
  match v with
  | VUndefined | VNull => true
  | _ => false
  end.

(** [a ?? b] *)
Definition coalesce (a b : value) : value := if nullish a then b else a.

(** A property of a typed record that may hold [undefined], [null] or a value
    (an optional, nullable GraphQL field). *)
Inductive nullable (A : Type) : Type :=
| undefined
| null
| present (a : A).
Arguments undefined {A}.
Arguments null {A}.
Arguments present {A} a.

Definition is_nullish {A} (n : nullable A) : bool :=
  match n with present _ => false | _ => true end.

Definition of_nullable (n : nullable string) : value :=
  match n with
  | undefined => VUndefined
  | null => VNull
  | present s => VString s
  end.

(** [n === v] where [n] is [undefined], [null] or a string. *)
Definition strict_eq (n : nullable string) (v : value) : bool :=
  match n, v with
  | undefined, VUndefined => true
  | null, VNull => true
  | present s, VString t => String.eqb s t
  | _, _ => false
  end.

(** Truthiness of an optional string: [undefined], [null] and the empty string
    are falsy. *)
Definition truthy (n : nullable string) : bool :=
  match n with
  | present s => negb (String.eqb s "")
  | _ => false
  end.

(** What a thrown exception carries is not inspected anywhere. *)
Inductive exception : Type :=
| ZodError
| Unreachable.

Inductive result (A : Type) : Type :=
| Ok (a : A)
| Throw (e : exception).
Arguments Ok {A} a.
Arguments Throw {A} e.

End JS.
Import JS.

(* ================================================================== *)
(** ** zod *)

Module Zod.

(** [schema.safeParse(v)]: [Some data] on success, [None] on failure. *)
Definition Schema := value -> option value.

Inductive UnknownKeys := strip | passthrough.

Definition string_ : Schema :=
  fun v => match v with VString _ => Some v | _ => None end.

Definition literal (s : string) : Schema :=
  fun v =>
    match v with
    | VString t => if String.eqb t s then Some v else None
    | _ => None
    end.

Definition unknown : Schema := fun v => Some v.

Definition optional (s : Schema) : Schema :=
  fun v => match v with VUndefined => Some VUndefined | _ => s v end.

Fixpoint parse_all (s : Schema) (l : list value) : option (list value) :=
  match l with
  | [] => Some []
  | x :: l' =>
      match s x, parse_all s l' with
      | Some y, Some ys => Some (y :: ys)
      | _, _ => None
      end
  end.

Definition array (s : Schema) : Schema :=
  fun v =>
    match v with
    | VArray l => option_map VArray (parse_all s l)
    | _ => None
    end.

Fixpoint parse_entries (s : Schema) (o : object) : option object :=
  match o with
  | [] => Some []
  | (k, x) :: o' =>
      match s x, parse_entries s o' with
      | Some y, Some ys => Some ((k, y) :: ys)
      | _, _ => None
      end
  end.

(** [z.record(s)]: any object, every property value validated by [s]. *)
Definition record (s : Schema) : Schema :=
  fun v =>
    match v with
    | VObject o => option_map VObject (parse_entries s o)
    | _ => None
    end.

Definition Shape := list (string * Schema).

Definition in_shape (k : string) (sh : Shape) : bool :=
  existsb (fun p => String.eqb k (fst p)) sh.

(** The declared keys, in declaration order.  A declared key that is missing
    from the input and validates to [undefined] is left out of the output. *)
Fixpoint parse_shape (sh : Shape) (o : object) : option object :=
  match sh with
  | [] => Some []
  | (k, s) :: sh' =>
      match s (get o k), parse_shape sh' o with
      | Some y, Some ys =>
          match y with
          | VUndefined => if has_key k o then Some ((k, y) :: ys) else Some ys
          | _ => Some ((k, y) :: ys)
          end
      | _, _ => None
      end
  end.

(** The undeclared keys of the input, in input order.  A key whose value in
    the input is [undefined] is left out of the output. *)
Definition extra_keys (sh : Shape) (o : object) : object :=
  filter
    (fun p =>
       negb (in_shape (fst p) sh)
       && match get o (fst p) with VUndefined => false | _ => true end)
    o.

Definition object_ (sh : Shape) (uk : UnknownKeys) : Schema :=
  fun v =>
    match v with
    | VObject o =>
        match parse_shape sh o with
        | Some ps =>
            Some (VObject (ps ++ match uk with
                                 | passthrough => extra_keys sh o
                                 | strip => []
                                 end))
        | None => None
        end
    | _ => None
    end.

Definition transform (s : Schema) (f : value -> value) : Schema :=
  fun v => option_map f (s v).

(** [schema.parse(v)] throws where [safeParse] fails. *)
Definition parse (s : Schema) (v : value) : result value :=
  match s v with
  | Some d => Ok d
  | None => Throw ZodError
  end.

End Zod.

(* ================================================================== *)
(** ** app/src/schemas/toolCallSchemas.ts *)

(** The provider tags met at run time: the members of [ModelProvider] and the
    [UNKNOWN] sentinel of the detector. *)
Inductive Provider : Type :=
| OPENAI
| AZURE_OPENAI
| ANTHROPIC
| GEMINI
| UNKNOWN.

(** [assertUnreachable(x)] *)
Definition assertUnreachable {A} : result A := Throw Unreachable.

Definition openAIToolCallSchema : Zod.Schema :=
  Zod.object_
    [ ("id", Zod.string_);
      ("function",
        Zod.object_
          [ ("name", Zod.string_);
            ("arguments", Zod.record Zod.unknown) ]
          Zod.passthrough) ]
    Zod.strip.

Definition anthropicToolCallSchema : Zod.Schema :=
  Zod.object_
    [ ("id", Zod.string_);
      ("type", Zod.literal "tool_use");
      ("name", Zod.string_);
      ("input", Zod.record Zod.unknown) ]
    Zod.passthrough.

Definition anthropicToolCallToOpenAI : Zod.Schema :=
  Zod.transform anthropicToolCallSchema
    (fun anthropic =>
       VObject
         [ ("id", prop anthropic "id");
           ("function",
             VObject
               [ ("name", prop anthropic "name");
                 ("arguments", prop anthropic "input") ]) ]).

Definition openAIToolCallToAnthropic : Zod.Schema :=
  Zod.transform openAIToolCallSchema
    (fun openai =>
       VObject
         [ ("id", prop openai "id");
           ("type", VString "tool_use");
           ("name", prop (prop openai "function") "name");
           ("input",
             match prop (prop openai "function") "arguments" with
             | VString s => VObject (JS.literal [(s, VString s)])
             | a => coalesce a (VObject [])
             end) ]).

Record ToolCallWithProvider : Type := {
  provider : Provider;
  validatedToolCall : option value
}.

Definition detectToolCallProvider (toolCall : value) : ToolCallWithProvider :=
  match openAIToolCallSchema toolCall with
  | Some openaiData =>
      {| provider := OPENAI; validatedToolCall := Some openaiData |}
  | None =>
      match anthropicToolCallSchema toolCall with
      | Some anthropicData =>
          {| provider := ANTHROPIC; validatedToolCall := Some anthropicData |}
      | None => {| provider := UNKNOWN; validatedToolCall := None |}
      end
  end.

(** The validated tool call as the JavaScript value the caller sees ([null]
    for the [UNKNOWN] sentinel). *)
Definition validated_value (d : ToolCallWithProvider) : value :=
  match validatedToolCall d with Some v => v | None => VNull end.

(** Returns [Ok None] for the [null] result. *)
Definition toOpenAIToolCall (toolCall : value) : result (option value) :=
  let d := detectToolCallProvider toolCall in
  match provider d with
  | AZURE_OPENAI | OPENAI => Ok (validatedToolCall d)
  | ANTHROPIC =>
      match Zod.parse anthropicToolCallToOpenAI (validated_value d) with
      | Ok v => Ok (Some v)
      | Throw e => Throw e
      end
  | UNKNOWN => Ok None
  | GEMINI => assertUnreachable
  end.

Definition fromOpenAIToolCall (toolCall : value) (targetProvider : Provider)
  : result value :=
  match targetProvider with
  | AZURE_OPENAI | OPENAI => Ok toolCall
  | ANTHROPIC => Zod.parse openAIToolCallToAnthropic toolCall
  | GEMINI => Ok toolCall
  | UNKNOWN => assertUnreachable
  end.

Definition createOpenAIToolCall : value :=
  VObject [ ("id", VString "");
            ("function", VObject [ ("name", VString "");
                                   ("arguments", VObject []) ]) ].

Definition createAnthropicToolCall : value :=
  VObject [ ("id", VString "");
            ("type", VString "tool_use");
            ("name", VString "");
            ("input", VObject []) ].

(* ================================================================== *)
(** ** Types of app/src/pages/playground *)

(** Modelled from the spec: the error codes of [./constants], which is not
    part of the sources at hand.  The spec (section 7) lists these seven
    distinct codes; only their identity matters here. *)
Inductive ParsingError : Type :=
| SPAN_ATTRIBUTES_PARSING_ERROR
| INPUT_MESSAGES_PARSING_ERROR
| OUTPUT_MESSAGES_PARSING_ERROR
| OUTPUT_VALUE_PARSING_ERROR
| MODEL_CONFIG_PARSING_ERROR
| MODEL_CONFIG_WITH_INVOCATION_PARAMETERS_PARSING_ERROR
| TOOLS_PARSING_ERROR.

(** The validated shapes of the span attributes, as [playgroundUtils.ts] reads
    them: a field the code guards with [?.], [??] or [== null] is optional. *)
Module Attr.

Record ToolCallFunction : Type := {
  name : option string;
  arguments : option string
}.

Record ToolCall : Type := {
  id : option string;
  function : option ToolCallFunction
}.

Record ToolCallEntry : Type := { tool_call : option ToolCall }.

Record Message : Type := {
  role : string;
  content : option string;
  tool_calls : option (list ToolCallEntry)
}.

Record MessageSchema : Type := { message : Message }.

Record ToolJsonSchema : Type := { json_schema : value }.

Record LlmTool : Type := { tool : option ToolJsonSchema }.

End Attr.

(** An invocation parameter definition declared by a model. *)
Record InvocationParameter : Type := {
  canonicalName : nullable string;
  invocationName : nullable string;
  invocationInputField : nullable string
}.

(** An invocation parameter input is built as an object literal with a
    computed key, so it is kept as a JavaScript object. *)
Definition InvocationParameterInput := object.

(** The entities of [@phoenix/store] that the utilities build. *)
Module Store.

Record ChatMessage : Type := {
  id : nat;
  role : string;
  content : option string;
  toolCalls : option (list value)
}.

Record Tool : Type := {
  tool_id : nat;
  definition : value
}.

Record ModelConfig : Type := {
  modelName : string;
  provider : Provider;
  invocationParameters : list InvocationParameterInput
}.

Inductive Template : Type :=
| chat (messages : list ChatMessage)
| text_completion (prompt : string).

Inductive Output : Type :=
| no_output
| text_output (s : string)
| messages_output (l : list ChatMessage).

(** The fields [playgroundUtils.ts] reads or writes; [others] holds the
    remaining properties of the instance, which are only ever copied. *)
Record PlaygroundInstance : Type := {
  model : ModelConfig;
  template : Template;
  output : Output;
  spanId : option string;
  tools : list Tool;
  others : object
}.

End Store.

Record PlaygroundSpan : Type := {
  span_id : string;
  attributes : string;
  span_invocationParameters : list InvocationParameter
}.

(** The result of [safelyParseJSON]: [parseError] is set exactly when the text
    is not JSON. *)
Record JSONParseResult : Type := {
  json : value;
  parseError : option string
}.

(** A value together with the error codes met while extracting it. *)
Record Parsed (A : Type) : Type := {
  data : A;
  parsingErrors : list ParsingError
}.
Arguments data {A} p.
Arguments parsingErrors {A} p.

(** What [playgroundUtils.ts] imports from modules that are not part of the
    sources at hand: the store (identifier generation and the default
    instance), the JSON reader, the constant tables and the zod schemas of
    [./schemas].  Each schema is given by its [safeParse], returning the part
    of the validated data the caller reads. *)
Class Env : Type := {
  StoreState : Type;
  generateMessageId : StoreState -> nat * StoreState;
  generateToolId : StoreState -> nat * StoreState;
  createPlaygroundInstance : StoreState -> Store.PlaygroundInstance * StoreState;
  safelyParseJSON : string -> JSONParseResult;
  isStringKeyedObject : value -> bool;
  (* the members of chatMessageRolesSchema *)
  chatMessageRoles : list string;
  (* Object.entries(ChatRoleMap) *)
  ChatRoleMap : list (string * list string);
  DEFAULT_CHAT_ROLE : string;
  (* the entries of modelProviderToModelPrefixMap, in key order *)
  modelProviderToModelPrefixMap : list (Provider * list string);
  DEFAULT_MODEL_PROVIDER : Provider;
  (* data.llm.input_messages *)
  llmInputMessageSchema : value -> option (list Attr.MessageSchema);
  (* data.llm.output_messages *)
  llmOutputMessageSchema : value -> option (list Attr.MessageSchema);
  (* data.output.value *)
  outputSchema : value -> option string;
  (* data.llm.model_name *)
  modelConfigSchema : value -> option string;
  (* data.llm.invocation_parameters *)
  modelConfigWithInvocationParametersSchema : value -> option object;
  (* data?.llm?.tools *)
  llmToolSchema : value -> option (option (list Attr.LlmTool))
}.

(* ================================================================== *)
(** ** Strings *)

Definition is_upper (c : ascii) : bool :=
  (65 <=? nat_of_ascii c)%nat && (nat_of_ascii c <=? 90)%nat.

Definition is_lower (c : ascii) : bool :=
  (97 <=? nat_of_ascii c)%nat && (nat_of_ascii c <=? 122)%nat.

Definition lower_char (c : ascii) : ascii :=
  if is_upper c then ascii_of_nat (nat_of_ascii c + 32) else c.

Definition upper_char (c : ascii) : ascii :=
  if is_lower c then ascii_of_nat (nat_of_ascii c - 32) else c.

(** [s.toLowerCase()], on the ASCII letters. *)
Fixpoint toLowerCase (s : string) : string :=
  match s with
  | EmptyString => EmptyString
  | String c s' => String (lower_char c) (toLowerCase s')
  end.

(** [s.includes(sub)] *)
Fixpoint includes (s sub : string) : bool :=
  String.prefix sub s ||
  match s with
  | EmptyString => false
  | String _ s' => includes s' sub
  end.

(** [l.includes(x)] on a list of strings. *)
Definition list_includes (l : list string) (x : string) : bool :=
  existsb (String.eqb x) l.

(** [str.replace(/_([a-z])/g, (_, char) => char.toUpperCase())] *)
Fixpoint toCamelCase (str : string) : string :=
  match str with
  | EmptyString => EmptyString
  | String c rest =>
      if Ascii.eqb c "_" then
        match rest with
        | String d rest' =>
            if is_lower d then String (upper_char d) (toCamelCase rest')
            else String c (toCamelCase rest)
        | EmptyString => String c EmptyString
        end
      else String c (toCamelCase rest)
  end.

(** The condition [n && n.toLowerCase() === key.toLowerCase()] on an optional
    name [n]: a missing or empty name is falsy. *)
Definition lower_matches (n : nullable string) (key : string) : bool :=
  match n with
  | present s => negb (String.eqb s "") && String.eqb (toLowerCase s) (toLowerCase key)
  | _ => false
  end.

(* ================================================================== *)
(** ** Effects: the store and exceptions *)

(** A computation that reads and updates the store and may throw. *)
Definition M (S A : Type) : Type := S -> result (A * S).

Definition ret {S A} (a : A) : M S A := fun st => Ok (a, st).

Definition bind {S A B} (m : M S A) (k : A -> M S B) : M S B :=
  fun st =>
    match m st with
    | Ok (a, st') => k a st'
    | Throw e => Throw e
    end.

(** A store operation that cannot throw. *)
Definition perform {S A} (f : S -> A * S) : M S A := fun st => Ok (f st).

(** A computation that does not touch the store. *)
Definition lift {S A} (r : result A) : M S A :=
  fun st =>
    match r with
    | Ok a => Ok (a, st)
    | Throw e => Throw e
    end.

Notation "x <- m ;; k" := (bind m (fun x => k))
  (at level 61, m at next level, right associativity).

(** [l.map(f)] for a callback with effects: left to right. *)
Fixpoint mapM {S A B} (f : A -> M S B) (l : list A) : M S (list B) :=
  match l with
  | [] => ret []
  | x :: l' =>
      y <- f x ;;
      ys <- mapM f l' ;;
      ret (y :: ys)
  end.

(** [l.map(f)] for a callback that may throw. *)
Fixpoint map_result {A B} (f : A -> result B) (l : list A) : result (list B) :=
  match l with
  | [] => Ok []
  | x :: l' =>
      match f x with
      | Throw e => Throw e
      | Ok y =>
          match map_result f l' with
          | Throw e => Throw e
          | Ok ys => Ok (y :: ys)
          end
      end
  end.

(** [l.filter((x) => x != null)] on the results of a callback that returns
    [null] as [None]. *)
Fixpoint non_null {A} (l : list (option A)) : list A :=
  match l with
  | [] => []
  | Some a :: l' => a :: non_null l'
  | None :: l' => non_null l'
  end.

(** [o ?? d] on an optional field. *)
Definition or_else {A} (o : option A) (d : A) : A :=
  match o with Some a => a | None => d end.

(* ================================================================== *)
(** ** app/src/pages/playground/playgroundUtils.ts *)

Section PlaygroundUtils.

Context {E : Env}.

Definition isChatMessageRole (role : string) : bool :=
  list_includes chatMessageRoles role.

Definition getChatRole (role : string) : string :=
  if isChatMessageRole role then role
  else
    match find (fun entry => list_includes (snd entry) role) ChatRoleMap with
    | Some (chatRole, _) => chatRole
    | None => DEFAULT_CHAT_ROLE
    end.

Definition processAttributeToolCalls
    (toolCalls : option (list Attr.ToolCallEntry)) (provider : Provider)
  : result (option (list value)) :=
  match toolCalls with
  | None => Ok None
  | Some entries =>
      match
        map_result
          (fun entry =>
             match Attr.tool_call entry with
             | None => Ok None
             | Some tool_call =>
                 let toolCallArgs :=
                   match
                     match Attr.function tool_call with
                     | Some f => Attr.arguments f
                     | None => None
                     end
                   with
                   | Some arguments =>
                       let parsedArguments := json (safelyParseJSON arguments) in
                       if isStringKeyedObject parsedArguments
                       then parsedArguments
                       else VObject []
                   | None => VObject []
                   end in
                 let name :=
                   or_else
                     match Attr.function tool_call with
                     | Some f => Attr.name f
                     | None => None
                     end
                     "" in
                 match provider with
                 | OPENAI | AZURE_OPENAI =>
                     Ok (Some (VObject
                       [ ("id", VString (or_else (Attr.id tool_call) ""));
                         ("function",
                           VObject [ ("name", VString name);
                                     ("arguments", toolCallArgs) ]) ]))
                 | ANTHROPIC =>
                     Ok (Some (VObject
                       [ ("id", VString (or_else (Attr.id tool_call) ""));
                         ("type", VString "tool_use");
                         ("name", VString name);
                         ("input", toolCallArgs) ]))
                 | _ => assertUnreachable
                 end
             end)
          entries
      with
      | Ok mapped => Ok (Some (non_null mapped))
      | Throw e => Throw e
      end
  end.

Definition processAttributeMessagesToChatMessage
    (messages : list Attr.MessageSchema) (provider : Provider)
  : M StoreState (list Store.ChatMessage) :=
  mapM
    (fun m =>
       let message := Attr.message m in
       id <- perform generateMessageId ;;
       toolCalls <-
         lift (processAttributeToolCalls (Attr.tool_calls message) provider) ;;
       ret {| Store.id := id;
              Store.role := getChatRole (Attr.role message);
              Store.content := Attr.content message;
              Store.toolCalls := toolCalls |})
    messages.

(** Returns [{messageParsingErrors, messages}]. *)
Definition getTemplateMessagesFromAttributes
    (provider : Provider) (parsedAttributes : value)
  : M StoreState (Parsed (option (list Store.ChatMessage))) :=
  match llmInputMessageSchema parsedAttributes with
  | None =>
      ret {| parsingErrors := [INPUT_MESSAGES_PARSING_ERROR]; data := None |}
  | Some input_messages =>
      messages <- processAttributeMessagesToChatMessage input_messages provider ;;
      ret {| parsingErrors := []; data := Some messages |}
  end.

(** Returns [{output, outputParsingErrors}]. *)
Definition getOutputFromAttributes
    (provider : Provider) (parsedAttributes : value)
  : M StoreState (Parsed Store.Output) :=
  let outputParsingErrors := [] in
  match llmOutputMessageSchema parsedAttributes with
  | Some output_messages =>
      messages <- processAttributeMessagesToChatMessage output_messages provider ;;
      ret {| data := Store.messages_output messages;
             parsingErrors := outputParsingErrors |}
  | None =>
      let outputParsingErrors :=
        outputParsingErrors ++ [OUTPUT_MESSAGES_PARSING_ERROR] in
      match outputSchema parsedAttributes with
      | Some value =>
          ret {| data := Store.text_output value;
                 parsingErrors := outputParsingErrors |}
      | None =>
          let outputParsingErrors :=
            outputParsingErrors ++ [OUTPUT_VALUE_PARSING_ERROR] in
          ret {| data := Store.no_output;
                 parsingErrors := outputParsingErrors |}
      end
  end.

Definition getModelProviderFromModelName (modelName : string) : Provider :=
  match
    find (fun entry => existsb (fun prefix => includes modelName prefix) (snd entry))
         modelProviderToModelPrefixMap
  with
  | Some (provider, _) => provider
  | None => DEFAULT_MODEL_PROVIDER
  end.

(** Returns [{modelConfig, parsingErrors}]. *)
Definition getBaseModelConfigFromAttributes (parsedAttributes : value)
  : Parsed (option Store.ModelConfig) :=
  match modelConfigSchema parsedAttributes with
  | Some model_name =>
      {| data := Some {| Store.modelName := model_name;
                         Store.provider := getModelProviderFromModelName model_name;
                         Store.invocationParameters := [] |};
         parsingErrors := [] |}
  | None => {| data := None; parsingErrors := [MODEL_CONFIG_PARSING_ERROR] |}
  end.

Definition transformInvocationParametersFromAttributesToInvocationParameterInputs
    (invocationParameters : object)
    (modelSupportedInvocationParameters : list InvocationParameter)
  : list InvocationParameterInput :=
  non_null
    (map
       (fun entry =>
          let key := fst entry in
          let value := snd entry in
          let invocationParameter :=
            find
              (fun mp =>
                 lower_matches (canonicalName mp) key
                 || lower_matches (invocationName mp) key)
              modelSupportedInvocationParameters in
          match invocationParameter with
          | None => None
          | Some ip =>
              match invocationInputField ip, invocationName ip with
              | present field, present name =>
                  Some (JS.literal
                          [ ("canonicalName", of_nullable (canonicalName ip));
                            ("invocationName", VString name);
                            (toCamelCase field, value) ])
              | _, _ => None
              end
          end)
       invocationParameters).

(** Returns [{invocationParameters, parsingErrors}]. *)
Definition getModelInvocationParametersFromAttributes
    (parsedAttributes : value)
    (modelSupportedInvocationParameters : list InvocationParameter)
  : Parsed (list InvocationParameterInput) :=
  let parsed := modelConfigWithInvocationParametersSchema parsedAttributes in
  let parsingErrors :=
    match parsed with
    | Some _ => []
    | None => [MODEL_CONFIG_WITH_INVOCATION_PARAMETERS_PARSING_ERROR]
    end in
  let invocationParameters :=
    transformInvocationParametersFromAttributesToInvocationParameterInputs
      (or_else parsed [])
      modelSupportedInvocationParameters in
  {| data := invocationParameters; parsingErrors := parsingErrors |}.

Definition processAttributeTools (tools : option (list Attr.LlmTool))
  : M StoreState (list Store.Tool) :=
  mapped <-
    mapM
      (fun tool =>
         match Attr.tool tool with
         | None => ret None
         | Some t =>
             id <- perform generateToolId ;;
             ret (Some {| Store.tool_id := id;
                          Store.definition := Attr.json_schema t |})
         end)
      (or_else tools []) ;;
  ret (non_null mapped).

(** Returns [{tools, parsingErrors}]. *)
Definition getToolsFromAttributes (parsedAttributes : value)
  : M StoreState (Parsed (option (list Store.Tool))) :=
  match llmToolSchema parsedAttributes with
  | None => ret {| data := None; parsingErrors := [TOOLS_PARSING_ERROR] |}
  | Some data_llm_tools =>
      match data_llm_tools with
      | None => ret {| data := None; parsingErrors := [] |}
      | Some _ =>
          tools <- processAttributeTools data_llm_tools ;;
          ret {| data := Some tools; parsingErrors := [] |}
      end
  end.

(** [{...instance, spanId}] *)
Definition with_spanId (i : Store.PlaygroundInstance) (s : option string)
  : Store.PlaygroundInstance :=
  {| Store.model := Store.model i;
     Store.template := Store.template i;
     Store.output := Store.output i;
     Store.spanId := s;
     Store.tools := Store.tools i;
     Store.others := Store.others i |}.

(** Returns [{playgroundInstance, parsingErrors}]. *)
Definition transformSpanAttributesToPlaygroundInstance (span : PlaygroundSpan)
  : M StoreState (Parsed Store.PlaygroundInstance) :=
  basePlaygroundInstance <- perform createPlaygroundInstance ;;
  let parsed := safelyParseJSON (attributes span) in
  let parsedAttributes := json parsed in
  match parseError parsed with
  | Some _ =>
      ret {| data := with_spanId basePlaygroundInstance (Some (span_id span));
             parsingErrors := [SPAN_ATTRIBUTES_PARSING_ERROR] |}
  | None =>
      let modelSupportedInvocationParameters := span_invocationParameters span in
      let baseModelConfigResult :=
        getBaseModelConfigFromAttributes parsedAttributes in
      let modelConfig := data baseModelConfigResult in
      let modelConfigParsingErrors := parsingErrors baseModelConfigResult in
      let provider :=
        match modelConfig with
        | Some c => Store.provider c
        | None => Store.provider (Store.model basePlaygroundInstance)
        end in
      messagesResult <-
        getTemplateMessagesFromAttributes provider parsedAttributes ;;
      outputResult <- getOutputFromAttributes provider parsedAttributes ;;
      let invocationParametersResult :=
        getModelInvocationParametersFromAttributes
          parsedAttributes modelSupportedInvocationParameters in
      let modelConfig :=
        match modelConfig with
        | Some c =>
            Some {| Store.modelName := Store.modelName c;
                    Store.provider := Store.provider c;
                    Store.invocationParameters :=
                      data invocationParametersResult |}
        | None => None
        end in
      toolsResult <- getToolsFromAttributes parsedAttributes ;;
      ret {| data :=
               {| Store.model :=
                    or_else modelConfig (Store.model basePlaygroundInstance);
                  Store.template :=
                    match data messagesResult with
                    | Some messages => Store.chat messages
                    | None => Store.template basePlaygroundInstance
                    end;
                  Store.output := data outputResult;
                  Store.spanId := Some (span_id span);
                  Store.tools :=
                    or_else (data toolsResult)
                            (Store.tools basePlaygroundInstance);
                  Store.others := Store.others basePlaygroundInstance |};
             parsingErrors :=
               parsingErrors messagesResult
               ++ parsingErrors outputResult
               ++ modelConfigParsingErrors
               ++ parsingErrors toolsResult
               ++ parsingErrors invocationParametersResult |}
  end.

Definition constrainInvocationParameterInputsToDefinition
    (invocationParameterInputs : list InvocationParameterInput)
    (definitions : list InvocationParameter)
  : list InvocationParameterInput :=
  map
    (fun ip =>
       set_prop "invocationName"
         (coalesce
            match
              find (fun mp => strict_eq (canonicalName mp) (get ip "canonicalName"))
                   definitions
            with
            | Some mp => of_nullable (invocationName mp)
            | None => VUndefined
            end
            (get ip "invocationName"))
         ip)
    (filter
       (fun ip =>
          existsb
            (fun mp =>
               strict_eq (invocationName mp) (get ip "invocationName")
               ||
               (negb (is_nullish (canonicalName mp)) &&
                negb (nullish (get ip "canonicalName")) &&
                strict_eq (canonicalName mp) (get ip "canonicalName")))
            definitions)
       invocationParameterInputs).

End PlaygroundUtils.

(* ================================================================== *)
(** ** The attribute schemas and constants, as the spec describes them

    [./schemas], [./constants] and [@phoenix/store] are not part of the
    sources at hand.  The definitions below follow the spec's description of
    them; the theorems about [playgroundUtils.ts] hold for every environment
    and use this one where a claim speaks of concrete attributes. *)

Module Described.

(** Modelled from the spec: the tool-call entry of a message (section 6),
    [{tool_call: {id, function: {name, arguments: text-encoded JSON}}}], every
    part of which the utilities treat as optional. *)
Definition toolCallSchema : Zod.Schema :=
  Zod.object_
    [ ("tool_call",
        Zod.optional
          (Zod.object_
             [ ("id", Zod.optional Zod.string_);
               ("function",
                 Zod.optional
                   (Zod.object_
                      [ ("name", Zod.optional Zod.string_);
                        ("arguments", Zod.optional Zod.string_) ]
                      Zod.strip)) ]
             Zod.strip)) ]
    Zod.strip.

(** Modelled from the spec: a message entry (sections 4.3 and 6),
    [{message: {role: text, content: optional text, tool_calls: optional
    list}}]. *)
Definition messageSchema : Zod.Schema :=
  Zod.object_
    [ ("message",
        Zod.object_
          [ ("role", Zod.string_);
            ("content", Zod.optional Zod.string_);
            ("tool_calls", Zod.optional (Zod.array toolCallSchema)) ]
          Zod.strip) ]
    Zod.strip.

(** Modelled from the spec: the [llm.input_messages] and
    [llm.output_messages] shapes (section 4.3). *)
Definition llmMessagesSchema (key : string) : Zod.Schema :=
  Zod.object_
    [ ("llm", Zod.object_ [ (key, Zod.array messageSchema) ] Zod.strip) ]
    Zod.strip.

(** Modelled from the spec: the free-form [output.value] shape (section 4.3),
    whose value is text (section 6). *)
Definition outputValueSchema : Zod.Schema :=
  Zod.object_
    [ ("output", Zod.object_ [ ("value", Zod.string_) ] Zod.strip) ]
    Zod.strip.

(** Modelled from the spec: the model configuration requires [llm.model_name]
    (section 4.3). *)
Definition modelNameSchema : Zod.Schema :=
  Zod.object_
    [ ("llm", Zod.object_ [ ("model_name", Zod.string_) ] Zod.strip) ]
    Zod.strip.

(** Modelled from the spec: the model configuration shape plus an
    [llm.invocation_parameters] map (section 4.3). *)
Definition invocationParametersSchema : Zod.Schema :=
  Zod.object_
    [ ("llm",
        Zod.object_
          [ ("model_name", Zod.string_);
            ("invocation_parameters", Zod.record Zod.unknown) ]
          Zod.strip) ]
    Zod.strip.

(** Modelled from the spec: an entry of [llm.tools] (section 4.3),
    [{tool: {json_schema}}]. *)
Definition toolEntrySchema : Zod.Schema :=
  Zod.object_
    [ ("tool", Zod.object_ [ ("json_schema", Zod.unknown) ] Zod.strip) ]
    Zod.strip.

(** Reading validated data into the typed shapes of [Attr]: these helpers
    stand for the static types that zod infers from a schema. *)
Definition as_string (v : value) : option string :=
  match v with VString s => Some s | _ => None end.

Definition as_function (v : value) : option Attr.ToolCallFunction :=
  match v with
  | VObject o =>
      Some {| Attr.name := as_string (get o "name");
              Attr.arguments := as_string (get o "arguments") |}
  | _ => None
  end.

Definition as_tool_call (v : value) : option Attr.ToolCall :=
  match v with
  | VObject o =>
      Some {| Attr.id := as_string (get o "id");
              Attr.function := as_function (get o "function") |}
  | _ => None
  end.

Definition as_tool_call_entry (v : value) : Attr.ToolCallEntry :=
  {| Attr.tool_call := as_tool_call (prop v "tool_call") |}.

Definition as_message (v : value) : Attr.MessageSchema :=
  let m := prop v "message" in
  {| Attr.message :=
       {| Attr.role := or_else (as_string (prop m "role")) "";
          Attr.content := as_string (prop m "content");
          Attr.tool_calls :=
            match prop m "tool_calls" with
            | VArray l => Some (map as_tool_call_entry l)
            | _ => None
            end |} |}.

Definition as_tool (v : value) : Attr.LlmTool :=
  {| Attr.tool :=
       match prop v "tool" with
       | VObject o => Some {| Attr.json_schema := get o "json_schema" |}
       | _ => None
       end |}.

(** Modelled from the spec: [safeParse] of the two message schemas, followed
    by the read of [data.llm.<key>]. *)
Definition llmMessages (key : string) (v : value)
  : option (list Attr.MessageSchema) :=
  match llmMessagesSchema key v with
  | Some d =>
      match prop (prop d "llm") key with
      | VArray l => Some (map as_message l)
      | _ => None
      end
  | None => None
  end.

(** Modelled from the spec: [llmInputMessageSchema] of [./schemas]
    (section 4.3, Messages). *)
Definition llmInputMessageSchema := llmMessages "input_messages".

(** Modelled from the spec: [llmOutputMessageSchema] of [./schemas]
    (section 4.3, Output). *)
Definition llmOutputMessageSchema := llmMessages "output_messages".

(** Modelled from the spec: [outputSchema] of [./schemas] (section 4.3,
    Output), with the read of [data.output.value]. *)
Definition outputSchema (v : value) : option string :=
  match outputValueSchema v with
  | Some d => as_string (prop (prop d "output") "value")
  | None => None
  end.

(** Modelled from the spec: [modelConfigSchema] of [./schemas] (section 4.3,
    Model Config), with the read of [data.llm.model_name]. *)
Definition modelConfigSchema (v : value) : option string :=
  match modelNameSchema v with
  | Some d => as_string (prop (prop d "llm") "model_name")
  | None => None
  end.

(** Modelled from the spec: [modelConfigWithInvocationParametersSchema] of
    [./schemas] (section 4.3, Invocation Parameters), with the read of
    [data.llm.invocation_parameters]. *)
Definition modelConfigWithInvocationParametersSchema (v : value)
  : option object :=
  match invocationParametersSchema v with
  | Some d =>
      match prop (prop d "llm") "invocation_parameters" with
      | VObject o => Some o
      | _ => None
      end
  | None => None
  end.

(** Modelled from the spec: [llmToolSchema] of [./schemas] (section 4.3,
    Tools), with the read of [data?.llm?.tools].  In the spec's words the
    absence of the [llm.tools] path is not an error, whatever else the
    attributes are; when the path is present, [llm.tools] must be an ordered
    list of [{tool: {json_schema}}] entries. *)
Definition llmToolSchema (v : value) : option (option (list Attr.LlmTool)) :=
  match prop (prop v "llm") "tools" with
  | VUndefined => Some None
  | tools =>
      match Zod.array toolEntrySchema tools with
      | Some (VArray l) => Some (Some (map as_tool l))
      | _ => None
      end
  end.

(** Modelled from the spec: identifiers are generated afresh from the store
    (sections 3 and 9); here each kind of identifier has its own counter. *)
Record Counters : Type := {
  messageIdIndex : nat;
  toolIdIndex : nat
}.

(** Modelled from the spec: [generateMessageId] of [@phoenix/store]. *)
Definition generateMessageId (c : Counters) : nat * Counters :=
  (messageIdIndex c,
   {| messageIdIndex := S (messageIdIndex c); toolIdIndex := toolIdIndex c |}).

(** Modelled from the spec: [generateToolId] of [@phoenix/store]. *)
Definition generateToolId (c : Counters) : nat * Counters :=
  (toolIdIndex c,
   {| messageIdIndex := messageIdIndex c; toolIdIndex := S (toolIdIndex c) |}).

(** Modelled from the spec: provider inference scans a fixed-order list of
    name prefixes (section 4.3); the prefixes are those of the examples of
    section 8. *)
Definition modelProviderToModelPrefixMap : list (Provider * list string) :=
  [ (OPENAI, ["gpt"]); (ANTHROPIC, ["claude"]) ].

(** Modelled from the spec: the default instance of the store, an empty
    canonical model (section 4.1). *)
Definition createPlaygroundInstance (c : Counters)
  : Store.PlaygroundInstance * Counters :=
  ({| Store.model := {| Store.modelName := "";
                        Store.provider := OPENAI;
                        Store.invocationParameters := [] |};
      Store.template := Store.chat [];
      Store.output := Store.no_output;
      Store.spanId := None;
      Store.tools := [];
      Store.others := [] |},
   c).

(** Modelled from the spec: ingestion (sections 4.1 and 8) on the texts the
    spec names: [parse("{}")] yields the empty object and no error,
    [parse("not json")] and [parse("{invalid")] yield a parse error.  Other
    texts are not needed here and are read as failures. *)
Definition safelyParseJSON (text : string) : JSONParseResult :=
  if String.eqb text "{}" then {| json := VObject []; parseError := None |}
  else {| json := VNull; parseError := Some "SyntaxError" |}.

(** Modelled from the spec: [isStringKeyedObject] of [@phoenix/typeUtils],
    which holds of the maps that tool-call arguments decode to (section 6). *)
Definition isStringKeyedObject (v : value) : bool :=
  match v with VObject _ => true | _ => false end.

(** Modelled from the spec: the closed role enum of [chatMessageRolesSchema]
    (sections 3 and 8); ["ai"] is not a member but an alias of the assistant
    role. *)
Definition chatMessageRoles : list string :=
  ["system"; "user"; "assistant"; "tool"].

(** Modelled from the spec: the ordered alias table [ChatRoleMap] of
    [./constants] (sections 4.3 and 9). *)
Definition ChatRoleMap : list (string * list string) :=
  [ ("user", ["user"; "human"]);
    ("assistant", ["assistant"; "bot"; "ai"]);
    ("system", ["system"]);
    ("tool", ["tool"]) ].

(** Modelled from the spec: the fixed default role (section 4.3). *)
Definition DEFAULT_CHAT_ROLE : string := "user".

(** Modelled from the spec: the environment made of the definitions above;
    the default provider is the one the default instance has. *)
#[export] Instance env : Env :=
  Build_Env
    Counters
    generateMessageId
    generateToolId
    createPlaygroundInstance
    safelyParseJSON
    isStringKeyedObject
    chatMessageRoles
    ChatRoleMap
    DEFAULT_CHAT_ROLE
    modelProviderToModelPrefixMap
    OPENAI
    llmInputMessageSchema
    llmOutputMessageSchema
    outputSchema
    modelConfigSchema
    modelConfigWithInvocationParametersSchema
    llmToolSchema.

End Described.

(* ================================================================== *)
(** ** Shapes of tool calls *)

Definition is_string (v : value) : bool :=
  match v with VString _ => true | _ => false end.

Definition is_object (v : value) : bool :=
  match v with VObject _ => true | _ => false end.

Definition is_literal (s : string) (v : value) : bool :=
  match v with VString t => String.eqb t s | _ => false end.

(** The OpenAI wire shape: [{id: string, function: {name: string, arguments:
    object}}], whatever else the object holds. *)
Definition openai_shape (v : value) : bool :=
  is_object v
  && is_string (prop v "id")
  && is_object (prop v "function")
  && is_string (prop (prop v "function") "name")
  && is_object (prop (prop v "function") "arguments").

(** The Anthropic wire shape: [{id: string, type: "tool_use", name: string,
    input: object}], whatever else the object holds. *)
Definition anthropic_shape (v : value) : bool :=
  is_object v
  && is_string (prop v "id")
  && is_literal "tool_use" (prop v "type")
  && is_string (prop v "name")
  && is_object (prop v "input").

(** The properties of an object, as a list. *)
Definition properties (v : value) : object :=
  match v with VObject o => o | _ => [] end.

(** What the OpenAI schema returns for a value of the OpenAI shape: the two
    declared top-level keys; inside [function], the declared keys followed by
    every other key of the input. *)
Definition openai_validated (v : value) : value :=
  let f := prop v "function" in
  VObject
    [ ("id", prop v "id");
      ("function",
        VObject
          (("name", prop f "name")
           :: ("arguments", prop f "arguments")
           :: Zod.extra_keys
                [("name", Zod.string_); ("arguments", Zod.record Zod.unknown)]
                (properties f))) ].

(** What the Anthropic schema returns for a value of the Anthropic shape: the
    declared keys followed by every other key of the input. *)
Definition anthropic_validated (v : value) : value :=
  VObject
    (("id", prop v "id")
     :: ("type", prop v "type")
     :: ("name", prop v "name")
     :: ("input", prop v "input")
     :: Zod.extra_keys
          [ ("id", Zod.string_); ("type", Zod.literal "tool_use");
            ("name", Zod.string_); ("input", Zod.record Zod.unknown) ]
          (properties v)).

(* ================================================================== *)
(** ** Sample inputs *)

(** A value that has both shapes: the order of the attempts decides. *)
Definition both_shapes : value :=
  VObject
    [ ("id", VString "call_1");
      ("type", VString "tool_use");
      ("name", VString "getCurrentWeather");
      ("input", VObject [("city", VString "San Francisco")]);
      ("function",
        VObject [ ("name", VString "getCurrentWeather");
                  ("arguments", VObject [("city", VString "San Francisco")]) ]) ].

(** The tool call of the documentation of [OpenAIToolCall]. *)
Definition weather_call : value :=
  VObject
    [ ("id", VString "1");
      ("function",
        VObject [ ("name", VString "getCurrentWeather");
                  ("arguments", VObject [("city", VString "San Francisco")]) ]) ].

(** An Anthropic tool call with a key the schema does not declare, and an
    OpenAI tool call with such keys at the top level and inside [function]. *)
Definition anthropic_with_extra : value :=
  VObject
    [ ("type", VString "tool_use");
      ("cache_control", VString "ephemeral");
      ("id", VString "1");
      ("name", VString "getCurrentWeather");
      ("input", VObject [("city", VString "San Francisco")]) ].

Definition openai_with_extra : value :=
  VObject
    [ ("index", VNumber 0);
      ("id", VString "1");
      ("function",
        VObject [ ("strict", VBool true);
                  ("name", VString "getCurrentWeather");
                  ("arguments", VObject [("city", VString "San Francisco")]) ]) ].

Definition openai_with_extra_validated : value :=
  VObject
    [ ("id", VString "1");
      ("function",
        VObject [ ("name", VString "getCurrentWeather");
                  ("arguments", VObject [("city", VString "San Francisco")]);
                  ("strict", VBool true) ]) ].

(** An OpenAI-style tool call whose arguments are text. *)
Definition text_arguments_call : value :=
  VObject
    [ ("id", VString "1");
      ("function",
        VObject [ ("name", VString "getCurrentWeather");
                  ("arguments", VString "{}") ]) ].

(** A span whose attributes are not JSON, and the store it is read in. *)
Definition broken_span : PlaygroundSpan :=
  {| span_id := "span-1";
     attributes := "{invalid";
     span_invocationParameters := [] |}.

Definition fresh_store : Described.Counters :=
  {| Described.messageIdIndex := 0; Described.toolIdIndex := 0 |}.

(** Attributes with no [llm] member, and attributes whose [llm.tools] is not
    a list. *)
Definition no_attributes : value := VObject [].

Definition tools_not_a_list : value :=
  VObject [ ("llm", VObject [ ("tools", VString "not-a-list") ]) ].




(** The definition and the raw maps of the reconciliation examples. *)
Definition temperature_definition : InvocationParameter :=
  {| canonicalName := undefined;
     invocationName := present "temperature";
     invocationInputField := present "double_value" |}.

Definition temperature_map : object := [ ("temperature", VNumber (7 # 10)) ].

Definition unknown_param_map : object := [ ("unknown_param", VNumber 1) ].

(** A definition whose invocation name is the empty string, and a raw map
    with the empty key. *)
Definition unnamed_definition : InvocationParameter :=
  {| canonicalName := null;
     invocationName := present "";
     invocationInputField := present "value_int" |}.

Definition empty_key_map : object := [ ("", VNumber 1) ].

(** An input without canonical name, and definitions two of which have no
    canonical name either. *)
Definition seed_input : InvocationParameterInput :=
  [ ("canonicalName", VNull);
    ("invocationName", VString "seed");
    ("valueInt", VNumber 1) ].

Definition new_definitions : list InvocationParameter :=
  [ {| canonicalName := present "TEMPERATURE";
       invocationName := present "temperature";
       invocationInputField := present "value_float" |};
    {| canonicalName := null;
       invocationName := present "frequency_penalty";
       invocationInputField := present "value_float" |};
    {| canonicalName := null;
       invocationName := present "seed";
       invocationInputField := present "value_int" |} ].

(* ================================================================== *)
(** ** The wording of the claims *)





(** Reconciliation, in the words of the spec.  [named] says when a definition
    is the one a key refers to; the entries of the raw map are handled in
    order, each by the first definition that names its key. *)
Section Reconciliation.

Variable named : string -> InvocationParameter -> Prop.

Inductive first_named (key : string)
  : list InvocationParameter -> option InvocationParameter -> Prop :=
| first_named_none : first_named key [] None
| first_named_here mp defs :
    named key mp -> first_named key (mp :: defs) (Some mp)
| first_named_later mp defs r :
    ~ named key mp -> first_named key defs r -> first_named key (mp :: defs) r.

Inductive reconciles (defs : list InvocationParameter)
  : object -> list InvocationParameterInput -> Prop :=
| reconciles_nil : reconciles defs [] []
| reconciles_unmatched key value raw out :
    first_named key defs None ->
    reconciles defs raw out ->
    reconciles defs ((key, value) :: raw) out
| reconciles_incomplete key value raw out mp :
    first_named key defs (Some mp) ->
    is_nullish (invocationInputField mp) = true
    \/ is_nullish (invocationName mp) = true ->
    reconciles defs raw out ->
    reconciles defs ((key, value) :: raw) out
| reconciles_emit key value raw out mp field name :
    first_named key defs (Some mp) ->
    invocationInputField mp = present field ->
    invocationName mp = present name ->
    reconciles defs raw out ->
    reconciles defs ((key, value) :: raw)
      (JS.literal [ ("canonicalName", of_nullable (canonicalName mp));
                    ("invocationName", VString name);
                    (toCamelCase field, value) ]
       :: out).

End Reconciliation.

(** The test that [find] applies to a definition in
    [transformInvocationParametersFromAttributesToInvocationParameterInputs]. *)
Definition code_named (key : string) (mp : InvocationParameter) : bool :=
  lower_matches (canonicalName mp) key || lower_matches (invocationName mp) key.

(** [n] is a name equal to [key] case-insensitively. *)
Definition same_name (n : nullable string) (key : string) : Prop :=
  exists s, n = present s /\ toLowerCase s = toLowerCase key.

(** [n] is a non-empty name equal to [key] case-insensitively. *)
Definition same_nonempty_name (n : nullable string) (key : string) : Prop :=
  exists s, n = present s /\ s <> "" /\ toLowerCase s = toLowerCase key.

(** The claim's wording: the definition's [canonicalName] or
    [invocationName] equals the key case-insensitively. *)
Definition named_as_stated (key : string) (mp : InvocationParameter) : Prop :=
  same_name (canonicalName mp) key \/ same_name (invocationName mp) key.

(** The amended wording: the name that equals the key is not empty. *)
Definition named_nonempty (key : string) (mp : InvocationParameter) : Prop :=
  same_nonempty_name (canonicalName mp) key
  \/ same_nonempty_name (invocationName mp) key.

(** Constraining, in the words of the claim.  An input and a definition
    have the same canonical parameter when both have a canonical name and
    the two names are equal. *)
Definition same_canonical
    (ip : InvocationParameterInput) (mp : InvocationParameter) : bool :=
  negb (is_nullish (canonicalName mp))
  && negb (nullish (get ip "canonicalName"))
  && strict_eq (canonicalName mp) (get ip "canonicalName").

Definition kept_as_claimed
    (definitions : list InvocationParameter) (ip : InvocationParameterInput)
  : bool :=
  existsb
    (fun mp =>
       strict_eq (invocationName mp) (get ip "invocationName")
       || same_canonical ip mp)
    definitions.

(** The input takes the invocation name of the first definition with the same
    canonical parameter, and is left as it is when there is none. *)
Definition renamed_as_claimed
    (definitions : list InvocationParameter) (ip : InvocationParameterInput)
  : InvocationParameterInput :=
  match find (same_canonical ip) definitions with
  | Some mp =>
      set_prop "invocationName"
        (coalesce (of_nullable (invocationName mp)) (get ip "invocationName"))
        ip
  | None => ip
  end.

Definition constrain_as_claimed
    (invocationParameterInputs : list InvocationParameterInput)
    (definitions : list InvocationParameter)
  : list InvocationParameterInput :=
  map (renamed_as_claimed definitions)
      (filter (kept_as_claimed definitions) invocationParameterInputs).

(** An input as the reconciler builds it for a canonical parameter: it has a
    canonical name and an invocation name. *)
Definition has_canonical_name (ip : InvocationParameterInput) : bool :=
  negb (nullish (get ip "canonicalName")) && has_key "invocationName" ip.

(* ================================================================== *)
(** ** playgroundUtils.ts: conversion and creation of tool calls *)

(** A result of type [T | null] as a JavaScript value. *)
Definition or_null (o : option value) : value :=
  match o with Some v => v | None => VNull end.

Definition convertMessageToolCallsToProvider
    (toolCalls : option (list value)) (provider : Provider)
  : result (option (list value)) :=
  match toolCalls with
  | None => Ok None
  | Some l =>
      match
        map_result
          (fun toolCall =>
             match provider with
             | OPENAI | AZURE_OPENAI =>
                 match toOpenAIToolCall toolCall with
                 | Ok r => Ok (or_null r)
                 | Throw e => Throw e
                 end
             | ANTHROPIC =>
                 match toOpenAIToolCall toolCall with
                 | Ok r => fromOpenAIToolCall (or_null r) provider
                 | Throw e => Throw e
                 end
             | _ => assertUnreachable
             end)
          l
      with
      | Ok converted => Ok (Some converted)
      | Throw e => Throw e
      end
  end.

Definition createToolCallForProvider (provider : Provider) : result value :=
  match provider with
  | OPENAI | AZURE_OPENAI => Ok createOpenAIToolCall
  | ANTHROPIC => Ok createAnthropicToolCall
  | _ => assertUnreachable
  end.

(* ================================================================== *)
(** ** playgroundUtils.ts: template variables *)

Section ExtractVariables.

(** [getTemplateLanguageUtils] of the template editor is not part of the
    sources at hand; only the [extractVariables] of the utilities it returns
    is used. *)
Variable TemplateLanguage : Type.
Variable getTemplateLanguageUtils : TemplateLanguage -> string -> list string.

(** [variables.add(variable)] on a [Set], kept as the list of its members in
    insertion order. *)
Definition set_add (variables : list string) (variable : string) : list string :=
  if list_includes variables variable then variables
  else variables ++ [variable].

(** [extracted.forEach((variable) => variables.add(variable))] *)
Definition add_each (variables extracted : list string) : list string :=
  fold_left set_add extracted variables.

(** Returns [Array.from(variables)]. *)
Definition extractVariablesFromInstances
    (instances : list Store.PlaygroundInstance)
    (templateLanguage : TemplateLanguage)
  : list string :=
  let extractVariables := getTemplateLanguageUtils templateLanguage in
  fold_left
    (fun variables instance =>
       match Store.template instance with
       | Store.chat messages =>
           fold_left
             (fun variables message =>
                let extractedVariables :=
                  match Store.content message with
                  | None => []
                  | Some content => extractVariables content
                  end in
                add_each variables extractedVariables)
             messages variables
       | Store.text_completion prompt =>
           add_each variables (extractVariables prompt)
       end)
    instances [].

End ExtractVariables.

(* ================================================================== *)
(** ** The JSON text component: [formatText]

    Lengths are counted in characters of the modelled string; [maxLength] is
    an integer. *)

(** [text.slice(0, end)]: a negative [end] counts from the end of the text. *)
Definition slice_to (text : string) (end_ : Z) : string :=
  let len := Z.of_nat (String.length text) in
  let stop := if (end_ <? 0)%Z then Z.max (len + end_) 0 else Z.min end_ len in
  substring 0 (Z.to_nat stop) text.

Definition formatText (text : string) (maxLength : Z) : string :=
  if (Z.of_nat (String.length text) >? maxLength)%Z
  then slice_to text maxLength ++ "..."
  else text.

(* ================================================================== *)
(** ** Vocabulary of the further properties *)

(** The providers that [playgroundUtils.ts] handles in its switches. *)
Definition supported (p : Provider) : bool :=
  match p with
  | OPENAI | AZURE_OPENAI | ANTHROPIC => true
  | _ => false
  end.

(** The dialect detection reports for the tool calls of a provider. *)
Definition dialect (p : Provider) : Provider :=
  match p with
  | AZURE_OPENAI => OPENAI
  | _ => p
  end.

(** A value that has one of the two shapes. *)
Definition recognised (v : value) : bool :=
  openai_shape v || anthropic_shape v.

(** An Anthropic tool call written in the OpenAI dialect. *)
Definition anthropic_as_openai (v : value) : value :=
  VObject
    [ ("id", prop v "id");
      ("function",
        VObject [ ("name", prop v "name"); ("arguments", prop v "input") ]) ].

(** An OpenAI tool call written in the Anthropic dialect. *)
Definition openai_as_anthropic (v : value) : value :=
  VObject
    [ ("id", prop v "id");
      ("type", VString "tool_use");
      ("name", prop (prop v "function") "name");
      ("input", prop (prop v "function") "arguments") ].

(** The tool call in the OpenAI dialect, when the value is recognised. *)
Definition as_openai (v : value) : option value :=
  if openai_shape v then Some (openai_validated v)
  else if anthropic_shape v then Some (anthropic_as_openai v)
  else None.

(** [sub] occurs somewhere in [s]. *)
Definition occurs_in (sub s : string) : Prop :=
  exists before after, s = (before ++ sub ++ after)%string.

(** An entry of the attributes that carries a tool call. *)
Definition has_tool_call (entry : Attr.ToolCallEntry) : bool :=
  match Attr.tool_call entry with Some _ => true | None => false end.

(** The error codes of a span whose attributes are JSON, read off the
    outcome of each schema: messages, output, model configuration, tools,
    invocation parameters. *)
Definition expected_errors {E : Env} (parsedAttributes : value)
  : list ParsingError :=
  match llmInputMessageSchema parsedAttributes with
  | Some _ => []
  | None => [INPUT_MESSAGES_PARSING_ERROR]
  end
  ++ match llmOutputMessageSchema parsedAttributes with
     | Some _ => []
     | None =>
         OUTPUT_MESSAGES_PARSING_ERROR
         :: match outputSchema parsedAttributes with
            | Some _ => []
            | None => [OUTPUT_VALUE_PARSING_ERROR]
            end
     end
  ++ match modelConfigSchema parsedAttributes with
     | Some _ => []
     | None => [MODEL_CONFIG_PARSING_ERROR]
     end
  ++ match llmToolSchema parsedAttributes with
     | Some _ => []
     | None => [TOOLS_PARSING_ERROR]
     end
  ++ match modelConfigWithInvocationParametersSchema parsedAttributes with
     | Some _ => []
     | None => [MODEL_CONFIG_WITH_INVOCATION_PARAMETERS_PARSING_ERROR]
     end.

(** A span whose attributes are the empty object. *)
Definition empty_span : PlaygroundSpan :=
  {| span_id := "span-2";
     attributes := "{}";
     span_invocationParameters := [temperature_definition] |}.

(** Two tool-call entries of a message, the second without tool call. *)
Definition sample_entries : list Attr.ToolCallEntry :=
  [ {| Attr.tool_call :=
         Some {| Attr.id := Some "call_1";
                 Attr.function :=
                   Some {| Attr.name := Some "getCurrentWeather";
                           Attr.arguments := Some "{}" |} |} |};
    {| Attr.tool_call := None |} ].

Definition sample_messages : list Attr.MessageSchema :=
  [ {| Attr.message :=
         {| Attr.role := "ai";
            Attr.content := Some "hello";
            Attr.tool_calls := Some sample_entries |} |};
    {| Attr.message :=
         {| Attr.role := "human";
            Attr.content := None;
            Attr.tool_calls := None |} |} ].

(** The renaming that [constrainInvocationParameterInputsToDefinition] maps
    over the inputs it keeps. *)
Definition code_rename
    (definitions : list InvocationParameter) (ip : InvocationParameterInput)
  : InvocationParameterInput :=
  set_prop "invocationName"
    (coalesce
       match
         find (fun mp => strict_eq (canonicalName mp) (get ip "canonicalName"))
              definitions
       with
       | Some mp => of_nullable (invocationName mp)
       | None => VUndefined
       end
       (get ip "invocationName"))
    ip.

(** No input field of the definitions is written over the invocation name of
    the input it is put in. *)
Definition field_spares_name (mp : InvocationParameter) : bool :=
  match invocationInputField mp with
  | present field => negb (String.eqb (toCamelCase field) "invocationName")
  | _ => true
  end.

(** The same raw map with another spelling of a key. *)
Definition shouted_temperature_map : object :=
  [ ("TEMPERATURE", VNumber (7 # 10)) ].

(** An instance with a chat template, and one with a prompt. *)
Definition chat_instance (messages : list Store.ChatMessage)
  : Store.PlaygroundInstance :=
  {| Store.model := {| Store.modelName := "";
                       Store.provider := OPENAI;
                       Store.invocationParameters := [] |};
     Store.template := Store.chat messages;
     Store.output := Store.no_output;
     Store.spanId := None;
     Store.tools := [];
     Store.others := [] |}.

Definition prompt_instance (prompt : string) : Store.PlaygroundInstance :=
  {| Store.model := {| Store.modelName := "";
                       Store.provider := OPENAI;
                       Store.invocationParameters := [] |};
     Store.template := Store.text_completion prompt;
     Store.output := Store.no_output;
     Store.spanId := None;
     Store.tools := [];
     Store.others := [] |}.

(** What the variables of an instance are extracted from: the contents of
    its chat messages, or its prompt. *)
Definition template_texts (instance : Store.PlaygroundInstance) : list string :=
  match Store.template instance with
  | Store.chat messages =>
      flat_map
        (fun message =>
           match Store.content message with
           | Some content => [content]
           | None => []
           end)
        messages
  | Store.text_completion prompt => [prompt]
  end.

(** The two loops of [extractVariablesFromInstances], step by step: over the
    messages of a chat template, and over the instances. *)
Definition message_step (extractVariables : string -> list string)
    (variables : list string) (message : Store.ChatMessage)
  : list string :=
  add_each variables
    match Store.content message with
    | None => []
    | Some content => extractVariables content
    end.

Definition instance_step (extractVariables : string -> list string)
    (variables : list string) (instance : Store.PlaygroundInstance)
  : list string :=
  match Store.template instance with
  | Store.chat messages =>
      fold_left (message_step extractVariables) messages variables
  | Store.text_completion prompt => add_each variables (extractVariables prompt)
  end.

(* ================================================================== *)
(** * Properties *)

(** ** zod *)

Lemma parse_entries_unknown (o : object) :
  Zod.parse_entries Zod.unknown o = Some o.
Proof.
  induction o as [|[k x] o IH]; simpl; [reflexivity|].
  now rewrite IH.
Qed.

Lemma lookup_filter_keys (q : string -> bool) (k : string) (o : object) :
  lookup k (filter (fun p => q (fst p)) o)
  = if q k then lookup k o else None.
Proof.
  induction o as [|[k' x] o IH]; cbn [filter lookup fst].
  - now destruct (q k).
  - destruct (String.eqb k k') eqn:Hk.
    + apply String.eqb_eq in Hk; subst k'.
      destruct (q k) eqn:Hq; cbn [lookup].
      * now rewrite String.eqb_refl.
      * exact IH.
    + destruct (q k'); cbn [lookup]; [now rewrite Hk|exact IH].
Qed.

Lemma get_extra_keys (sh : Zod.Shape) (k : string) (o : object) :
  get (Zod.extra_keys sh o) k
  = if Zod.in_shape k sh then VUndefined else get o k.
Proof.
  unfold Zod.extra_keys, get at 1.
  rewrite (lookup_filter_keys
             (fun k' => negb (Zod.in_shape k' sh)
                        && match get o k' with VUndefined => false | _ => true end)).
  destruct (Zod.in_shape k sh); cbn [negb andb]; [reflexivity|].
  unfold get. now destruct (lookup k o) as [[]|].
Qed.

(** ** The two tool-call schemas *)

Lemma openAIToolCallSchema_shape (v : value) :
  openAIToolCallSchema v
  = if openai_shape v then Some (openai_validated v) else None.
Proof.
  destruct v as [| | | | |l|o]; try reflexivity.
  unfold openAIToolCallSchema, openai_shape, openai_validated, Zod.object_.
  cbn [Zod.parse_shape prop is_object andb].
  destruct (get o "id") as [| | | |i| |] eqn:Hid; cbn; try reflexivity.
  destruct (get o "function") as [| | | | | |f] eqn:Hf; cbn; try reflexivity.
  destruct (get f "name") as [| | | |n| |] eqn:Hn; cbn; try reflexivity.
  destruct (get f "arguments") as [| | | | | |a] eqn:Ha; cbn; try reflexivity.
  rewrite parse_entries_unknown. reflexivity.
Qed.

Lemma anthropicToolCallSchema_shape (v : value) :
  anthropicToolCallSchema v
  = if anthropic_shape v then Some (anthropic_validated v) else None.
Proof.
  destruct v as [| | | | |l|o]; try reflexivity.
  unfold anthropicToolCallSchema, anthropic_shape, anthropic_validated, Zod.object_.
  cbn [Zod.parse_shape prop is_object andb properties].
  destruct (get o "id") as [| | | |i| |] eqn:Hid; cbn; try reflexivity.
  destruct (get o "type") as [| | | |t| |] eqn:Ht; cbn; try reflexivity.
  destruct (String.eqb t "tool_use") eqn:Hlit; cbn; try reflexivity.
  destruct (get o "name") as [| | | |n| |] eqn:Hn; cbn; try reflexivity.
  destruct (get o "input") as [| | | | | |a] eqn:Ha; cbn; try reflexivity.
  rewrite parse_entries_unknown. reflexivity.
Qed.

Lemma openai_shape_inv (v : value) :
  openai_shape v = true ->
  exists o f i n a,
    v = VObject o /\ get o "id" = VString i /\ get o "function" = VObject f
    /\ get f "name" = VString n /\ get f "arguments" = VObject a.
Proof.
  unfold openai_shape.
  destruct v as [| | | | |l|o]; try discriminate.
  cbn [prop is_object andb].
  destruct (get o "id") as [| | | |i| |] eqn:Hid; try discriminate.
  destruct (get o "function") as [| | | | | |f] eqn:Hf; try discriminate.
  cbn [prop is_object is_string andb].
  destruct (get f "name") as [| | | |n| |] eqn:Hn; try discriminate.
  destruct (get f "arguments") as [| | | | | |a] eqn:Ha; try discriminate.
  intros _. exists o, f, i, n, a. repeat split; assumption.
Qed.

Lemma anthropic_shape_literal (v : value) :
  anthropic_shape v = true -> prop v "type" = VString "tool_use".
Proof.
  unfold anthropic_shape. intros H.
  repeat (apply andb_prop in H; destruct H as [H ?]).
  destruct (prop v "type"); try discriminate.
  cbn in *. f_equal. now apply String.eqb_eq.
Qed.

(** C5. Detection tries the OpenAI shape first, then the Anthropic shape
    (which requires the literal [type == "tool_use"]), and otherwise answers
    [UNKNOWN] with no validated value; a value of the OpenAI shape is tagged
    [OPENAI] even when it also has the Anthropic shape, and no value is ever
    tagged [AZURE_OPENAI]. *)
Theorem detectToolCallProvider_priority (toolCall : value) :
  (openai_shape toolCall = true ->
   detectToolCallProvider toolCall
   = {| provider := OPENAI;
        validatedToolCall := Some (openai_validated toolCall) |})
  /\ (openai_shape toolCall = false -> anthropic_shape toolCall = true ->
      detectToolCallProvider toolCall
      = {| provider := ANTHROPIC;
           validatedToolCall := Some (anthropic_validated toolCall) |})
  /\ (openai_shape toolCall = false -> anthropic_shape toolCall = false ->
      detectToolCallProvider toolCall
      = {| provider := UNKNOWN; validatedToolCall := None |})
  /\ provider (detectToolCallProvider toolCall) <> AZURE_OPENAI
  /\ provider (detectToolCallProvider toolCall) <> GEMINI
  /\ (provider (detectToolCallProvider toolCall) = ANTHROPIC ->
      prop toolCall "type" = VString "tool_use").
Proof.
  unfold detectToolCallProvider.
  rewrite openAIToolCallSchema_shape, anthropicToolCallSchema_shape.
  destruct (openai_shape toolCall) eqn:Ho;
    destruct (anthropic_shape toolCall) eqn:Ha; cbn;
    repeat split; intros; try discriminate; try reflexivity;
    now apply anthropic_shape_literal.
Qed.

(** The empty tool calls the playground creates are detected as what they
    are meant to be. *)
Example detect_created_tool_calls :
  provider (detectToolCallProvider createOpenAIToolCall) = OPENAI
  /\ provider (detectToolCallProvider createAnthropicToolCall) = ANTHROPIC.
Proof. split; reflexivity. Qed.

Example detect_both_shapes :
  anthropic_shape both_shapes = true
  /\ provider (detectToolCallProvider both_shapes) = OPENAI.
Proof. split; reflexivity. Qed.

(** C1. An OpenAI tool call whose arguments are a map, converted to the
    Anthropic dialect by [fromOpenAIToolCall] and back by [toOpenAIToolCall],
    comes back with the same [id], [function.name] and
    [function.arguments]. *)
Theorem openai_anthropic_openai_roundtrip (toolCall : value) :
  openai_shape toolCall = true ->
  exists anthropic back,
    fromOpenAIToolCall toolCall ANTHROPIC = Ok anthropic
    /\ toOpenAIToolCall anthropic = Ok (Some back)
    /\ prop back "id" = prop toolCall "id"
    /\ prop (prop back "function") "name"
       = prop (prop toolCall "function") "name"
    /\ prop (prop back "function") "arguments"
       = prop (prop toolCall "function") "arguments".
Proof.
  intros Hshape.
  destruct (openai_shape_inv _ Hshape) as (o & f & i & n & a & -> & Hi & Hf & Hn & Ha).
  unfold fromOpenAIToolCall, Zod.parse, openAIToolCallToAnthropic, Zod.transform.
  rewrite openAIToolCallSchema_shape, Hshape.
  cbn [option_map openai_validated prop get lookup String.eqb Ascii.eqb Bool.eqb].
  rewrite Hi, Hf. cbn [prop]. rewrite Hn, Ha.
  cbn [coalesce nullish].
  eexists; eexists. split; [reflexivity|].
  unfold toOpenAIToolCall, detectToolCallProvider.
  rewrite openAIToolCallSchema_shape, anthropicToolCallSchema_shape.
  cbn.
  unfold Zod.parse, anthropicToolCallToOpenAI, Zod.transform.
  rewrite anthropicToolCallSchema_shape. cbn.
  repeat split; reflexivity.
Qed.

Lemma openai_anthropic_openai_roundtrip_witness :
  exists anthropic back,
    fromOpenAIToolCall weather_call ANTHROPIC = Ok anthropic
    /\ toOpenAIToolCall anthropic = Ok (Some back)
    /\ prop back "id" = prop weather_call "id"
    /\ prop (prop back "function") "name"
       = prop (prop weather_call "function") "name"
    /\ prop (prop back "function") "arguments"
       = prop (prop weather_call "function") "arguments".
Proof.
  apply (openai_anthropic_openai_roundtrip weather_call). reflexivity.
Defined.

Lemma get_declared_or_extra (sh : Zod.Shape) (o : object) (k : string) :
  Zod.in_shape k sh = false ->
  get (Zod.extra_keys sh o) k = get o k.
Proof.
  intros Hk. now rewrite get_extra_keys, Hk.
Qed.

Lemma get_cons (k k' : string) (x : value) (o : object) :
  get ((k', x) :: o) k = if String.eqb k k' then x else get o k.
Proof.
  unfold get. cbn [lookup]. now destruct (String.eqb k k').
Qed.

(** C2 at two tool calls that carry undeclared keys.  By the claim, and by
    the note above [openAIToolCallSchema] in the source, the validated value
    holds the declared fields only.  The code returns the Anthropic tool
    call with its undeclared top-level key [cache_control], and the OpenAI
    tool call with the undeclared key [strict] inside [function]; only the
    undeclared top-level key [index] of the OpenAI tool call is gone. *)
Lemma validated_keeps_extra_keys :
  detectToolCallProvider anthropic_with_extra
  = {| provider := ANTHROPIC;
       validatedToolCall :=
         Some (VObject
                 [ ("id", VString "1");
                   ("type", VString "tool_use");
                   ("name", VString "getCurrentWeather");
                   ("input", VObject [("city", VString "San Francisco")]);
                   ("cache_control", VString "ephemeral") ]) |}
  /\ detectToolCallProvider openai_with_extra
     = {| provider := OPENAI;
          validatedToolCall := Some openai_with_extra_validated |}
  /\ prop (prop openai_with_extra_validated "function") "strict" = VBool true.
Proof. repeat split; reflexivity. Qed.

(** An undeclared key that holds [undefined] is the one undeclared key a
    passthrough schema leaves out. *)
Example validated_drops_undefined_key :
  validatedToolCall
    (detectToolCallProvider
       (VObject
          [ ("id", VString "1");
            ("type", VString "tool_use");
            ("name", VString "getCurrentWeather");
            ("input", VObject []);
            ("note", VUndefined);
            ("cache_control", VString "ephemeral") ]))
  = Some (VObject
            [ ("id", VString "1");
              ("type", VString "tool_use");
              ("name", VString "getCurrentWeather");
              ("input", VObject []);
              ("cache_control", VString "ephemeral") ]).
Proof. reflexivity. Qed.

(** What the two schemas do, as they are written, with the keys they do not
    declare: the validated OpenAI tool call has exactly the top-level keys
    [id] and [function]; a read of any key inside its [function] object, and
    of any top-level key of a validated Anthropic tool call, gives what it
    gives on the input. *)
Theorem detectToolCallProvider_validated_keys (toolCall validated : value) :
  validatedToolCall (detectToolCallProvider toolCall) = Some validated ->
  match provider (detectToolCallProvider toolCall) with
  | OPENAI =>
      map fst (properties validated) = ["id"; "function"]
      /\ prop validated "id" = prop toolCall "id"
      /\ forall k, prop (prop validated "function") k
                   = prop (prop toolCall "function") k
  | ANTHROPIC =>
      is_object validated = true
      /\ forall k, prop validated k = prop toolCall k
  | _ => False
  end.
Proof.
  unfold detectToolCallProvider.
  rewrite openAIToolCallSchema_shape, anthropicToolCallSchema_shape.
  destruct (openai_shape toolCall) eqn:Ho.
  - cbn. intros [= <-].
    destruct (openai_shape_inv _ Ho) as (o & f & i & n & a & -> & Hi & Hf & Hn & Ha).
    cbn -[Zod.extra_keys]. rewrite Hf. cbn -[Zod.extra_keys]. repeat split.
    intros k. rewrite !get_cons.
    destruct (String.eqb k "name") eqn:Hkn.
    { apply String.eqb_eq in Hkn. now subst k. }
    destruct (String.eqb k "arguments") eqn:Hka.
    { apply String.eqb_eq in Hka. now subst k. }
    apply get_declared_or_extra. cbn. now rewrite Hkn, Hka.
  - destruct (anthropic_shape toolCall) eqn:Ha; cbn; [|discriminate].
    intros [= <-].
    destruct toolCall as [| | | | |l|o]; try discriminate.
    cbn -[Zod.extra_keys]. split; [reflexivity|].
    intros k. rewrite !get_cons.
    destruct (String.eqb k "id") eqn:H1.
    { apply String.eqb_eq in H1. now subst k. }
    destruct (String.eqb k "type") eqn:H2.
    { apply String.eqb_eq in H2. now subst k. }
    destruct (String.eqb k "name") eqn:H3.
    { apply String.eqb_eq in H3. now subst k. }
    destruct (String.eqb k "input") eqn:H4.
    { apply String.eqb_eq in H4. now subst k. }
    apply get_declared_or_extra. cbn. now rewrite H1, H2, H3, H4.
Qed.

Lemma detectToolCallProvider_validated_keys_witness :
  map fst (properties openai_with_extra_validated) = ["id"; "function"]
  /\ prop openai_with_extra_validated "id" = prop openai_with_extra "id"
  /\ forall k, prop (prop openai_with_extra_validated "function") k
               = prop (prop openai_with_extra "function") k.
Proof.
  exact (detectToolCallProvider_validated_keys
           openai_with_extra openai_with_extra_validated eq_refl).
Defined.

(** C6, as stated, fails: a tool call whose [function.arguments] is a string
    is not converted to an Anthropic tool call with a single-entry input; the
    schema rejects it and the conversion throws. *)
Lemma fromOpenAIToolCall_text_arguments_throws :
  fromOpenAIToolCall text_arguments_call ANTHROPIC = Throw ZodError.
Proof. reflexivity. Qed.

(** C6, amended. For the Anthropic target, [fromOpenAIToolCall] turns a tool
    call of the OpenAI shape into [{id, type: "tool_use", name:
    function.name, input: function.arguments}]; any other value, and so any
    tool call whose [function.arguments] is a string, makes it throw. *)
Theorem fromOpenAIToolCall_anthropic (toolCall : value) :
  (openai_shape toolCall = true ->
   fromOpenAIToolCall toolCall ANTHROPIC
   = Ok (VObject
           [ ("id", prop toolCall "id");
             ("type", VString "tool_use");
             ("name", prop (prop toolCall "function") "name");
             ("input", prop (prop toolCall "function") "arguments") ]))
  /\ (openai_shape toolCall = false ->
      fromOpenAIToolCall toolCall ANTHROPIC = Throw ZodError)
  /\ (forall s, prop (prop toolCall "function") "arguments" = VString s ->
      fromOpenAIToolCall toolCall ANTHROPIC = Throw ZodError).
Proof.
  assert (Hno : openai_shape toolCall = false ->
                fromOpenAIToolCall toolCall ANTHROPIC = Throw ZodError).
  { intros H. unfold fromOpenAIToolCall, Zod.parse, openAIToolCallToAnthropic,
      Zod.transform. now rewrite openAIToolCallSchema_shape, H. }
  split; [|split].
  - intros Hshape.
    destruct (openai_shape_inv _ Hshape) as (o & f & i & n & a & -> & Hi & Hf & Hn & Ha).
    unfold fromOpenAIToolCall, Zod.parse, openAIToolCallToAnthropic, Zod.transform.
    rewrite openAIToolCallSchema_shape, Hshape.
    cbn. rewrite Hf. cbn. rewrite Ha. reflexivity.
  - exact Hno.
  - intros s Hs. apply Hno. unfold openai_shape. rewrite Hs.
    cbn. now rewrite !andb_false_r.
Qed.

(** ** Role resolution *)

Lemma list_includes_In (l : list string) (x : string) :
  list_includes l x = true <-> In x l.
Proof.
  unfold list_includes. rewrite existsb_exists. split.
  - intros (y & Hy & Hxy). apply String.eqb_eq in Hxy. now subst y.
  - intros Hx. exists x. split; [assumption|apply String.eqb_refl].
Qed.

Lemma list_includes_not_In (l : list string) (x : string) :
  list_includes l x = false <-> ~ In x l.
Proof.
  rewrite <- list_includes_In. now destruct (list_includes l x).
Qed.

Lemma find_first {A} (p : A -> bool) (before after : list A) (x : A) :
  (forall y, In y before -> p y = false) -> p x = true ->
  find p (before ++ x :: after) = Some x.
Proof.
  intros Hbefore Hx. induction before as [|y before IH]; cbn.
  - now rewrite Hx.
  - rewrite (Hbefore y (or_introl eq_refl)). apply IH.
    intros z Hz. apply Hbefore. now right.
Qed.

Lemma find_none {A} (p : A -> bool) (l : list A) :
  (forall y, In y l -> p y = false) -> find p l = None.
Proof.
  intros Hl. induction l as [|y l IH]; cbn; [reflexivity|].
  rewrite (Hl y (or_introl eq_refl)). apply IH.
  intros z Hz. apply Hl. now right.
Qed.

(** C8. [getChatRole] answers for every string, and with a member of the
    role enum (the keys of the alias table and the default role being
    members, as their types say): a member is returned as it is; a string
    that is no member gets the role of the first entry of the alias table
    that lists it, and the default role when no entry lists it.  With the
    table the spec describes, ["ai"] resolves to the assistant role and
    ["unknown-role-xyz"] to the default role. *)
Theorem getChatRole_total :
  (forall (E : Env) (role : string),
      Forall (fun entry => In (fst entry) chatMessageRoles) ChatRoleMap ->
      In DEFAULT_CHAT_ROLE chatMessageRoles ->
      In (getChatRole role) chatMessageRoles)
  /\ (forall (E : Env) (role : string),
         In role chatMessageRoles -> getChatRole role = role)
  /\ (forall (E : Env) (role : string) before chatRole accepted after,
         ~ In role chatMessageRoles ->
         ChatRoleMap = before ++ (chatRole, accepted) :: after ->
         (forall entry, In entry before -> ~ In role (snd entry)) ->
         In role accepted ->
         getChatRole role = chatRole)
  /\ (forall (E : Env) (role : string),
         ~ In role chatMessageRoles ->
         (forall entry, In entry ChatRoleMap -> ~ In role (snd entry)) ->
         getChatRole role = DEFAULT_CHAT_ROLE)
  /\ getChatRole (E := Described.env) "ai" = "assistant"
  /\ getChatRole (E := Described.env) "unknown-role-xyz"
     = Described.DEFAULT_CHAT_ROLE.
Proof.
  split; [|split; [|split; [|split; [|split; reflexivity]]]].
  - intros E role Hkeys Hdefault. unfold getChatRole, isChatMessageRole.
    destruct (list_includes chatMessageRoles role) eqn:Hrole.
    + now apply list_includes_In.
    + destruct (find _ ChatRoleMap) as [[chatRole accepted]|] eqn:Hfind;
        [|assumption].
      apply find_some in Hfind. destruct Hfind as [Hin _].
      rewrite Forall_forall in Hkeys. exact (Hkeys _ Hin).
  - intros E role Hrole. unfold getChatRole, isChatMessageRole.
    apply list_includes_In in Hrole. now rewrite Hrole.
  - intros E role before chatRole accepted after Hrole Hmap Hbefore Haccepted.
    unfold getChatRole, isChatMessageRole.
    apply list_includes_not_In in Hrole. rewrite Hrole, Hmap.
    rewrite find_first; [reflexivity| |].
    + intros entry Hentry. apply list_includes_not_In. now apply Hbefore.
    + now apply list_includes_In.
  - intros E role Hrole Hnone. unfold getChatRole, isChatMessageRole.
    apply list_includes_not_In in Hrole. rewrite Hrole.
    rewrite find_none; [reflexivity|].
    intros entry Hentry. apply list_includes_not_In. now apply Hnone.
Qed.

Lemma getChatRole_total_witness :
  In (getChatRole (E := Described.env) "bot") Described.chatMessageRoles
  /\ getChatRole (E := Described.env) "tool" = "tool"
  /\ getChatRole (E := Described.env) "human" = "user".
Proof.
  destruct getChatRole_total as (Hmember & Hexact & Halias & _).
  split; [|split].
  - apply (Hmember Described.env "bot").
    + repeat (apply Forall_cons; [cbn; auto 6|]). apply Forall_nil.
    + cbn; auto.
  - apply (Hexact Described.env "tool"). cbn; auto 6.
  - apply (Halias Described.env "human" []
             "user" ["user"; "human"]
             [ ("assistant", ["assistant"; "bot"; "ai"]);
               ("system", ["system"]); ("tool", ["tool"]) ]).
    + cbn. intros [H|[H|[H|[H|H]]]]; try discriminate. exact H.
    + reflexivity.
    + intros entry [].
    + cbn; auto.
Defined.

(** ** The fatal path *)

(** C3. When the attributes of a span are not JSON,
    [transformSpanAttributesToPlaygroundInstance] returns the default
    instance with [spanId] set from the span and no other field changed, and
    the error list [[SPAN_ATTRIBUTES_PARSING_ERROR]]; the store is left as
    [createPlaygroundInstance] left it, so no message or tool identifier was
    generated by an extraction step. *)
Theorem transformSpan_attributes_not_json
    (E : Env) (span : PlaygroundSpan) (st : StoreState) :
  parseError (safelyParseJSON (attributes span)) <> None ->
  exists instance,
    transformSpanAttributesToPlaygroundInstance span st
    = Ok ({| data := instance;
             parsingErrors := [SPAN_ATTRIBUTES_PARSING_ERROR] |},
          snd (createPlaygroundInstance st))
    /\ Store.spanId instance = Some (span_id span)
    /\ Store.model instance = Store.model (fst (createPlaygroundInstance st))
    /\ Store.template instance
       = Store.template (fst (createPlaygroundInstance st))
    /\ Store.output instance = Store.output (fst (createPlaygroundInstance st))
    /\ Store.tools instance = Store.tools (fst (createPlaygroundInstance st))
    /\ Store.others instance = Store.others (fst (createPlaygroundInstance st)).
Proof.
  intros Herror.
  unfold transformSpanAttributesToPlaygroundInstance, bind, perform.
  destruct (createPlaygroundInstance st) as [base st'] eqn:Hbase.
  destruct (parseError (safelyParseJSON (attributes span))) as [e|];
    [|contradiction].
  eexists. split; [reflexivity|]. cbn. repeat split; reflexivity.
Qed.

Lemma transformSpan_attributes_not_json_witness :
  exists instance,
    transformSpanAttributesToPlaygroundInstance (E := Described.env)
      broken_span fresh_store
    = Ok ({| data := instance;
             parsingErrors := [SPAN_ATTRIBUTES_PARSING_ERROR] |},
          fresh_store)
    /\ Store.spanId instance = Some "span-1"
    /\ Store.model instance
       = Store.model (fst (Described.createPlaygroundInstance fresh_store))
    /\ Store.template instance = Store.chat []
    /\ Store.output instance = Store.no_output
    /\ Store.tools instance = []
    /\ Store.others instance = [].
Proof.
  apply (transformSpan_attributes_not_json Described.env broken_span fresh_store).
  discriminate.
Defined.

(** ** Output extraction *)

(** C7. [getOutputFromAttributes] tries the [llm.output_messages] shape
    first and, when it validates, reports no error; when it does not, the
    error list starts with [OUTPUT_MESSAGES_PARSING_ERROR] and the
    [output.value] shape is tried; when that fails too,
    [OUTPUT_VALUE_PARSING_ERROR] is appended and there is no output.  With
    the shapes the spec describes, the empty attributes object yields both
    errors, in that order. *)
Theorem getOutputFromAttributes_fallback :
  (forall (E : Env) provider parsedAttributes st output_messages,
      llmOutputMessageSchema parsedAttributes = Some output_messages ->
      getOutputFromAttributes provider parsedAttributes st
      = match processAttributeMessagesToChatMessage output_messages provider st with
        | Ok (messages, st') =>
            Ok ({| data := Store.messages_output messages;
                   parsingErrors := [] |}, st')
        | Throw e => Throw e
        end)
  /\ (forall (E : Env) provider parsedAttributes st value,
         llmOutputMessageSchema parsedAttributes = None ->
         outputSchema parsedAttributes = Some value ->
         getOutputFromAttributes provider parsedAttributes st
         = Ok ({| data := Store.text_output value;
                  parsingErrors := [OUTPUT_MESSAGES_PARSING_ERROR] |}, st))
  /\ (forall (E : Env) provider parsedAttributes st,
         llmOutputMessageSchema parsedAttributes = None ->
         outputSchema parsedAttributes = None ->
         getOutputFromAttributes provider parsedAttributes st
         = Ok ({| data := Store.no_output;
                  parsingErrors := [OUTPUT_MESSAGES_PARSING_ERROR;
                                    OUTPUT_VALUE_PARSING_ERROR] |}, st))
  /\ (exists parsedAttributes,
         forall provider st,
           getOutputFromAttributes (E := Described.env) provider parsedAttributes st
           = Ok ({| data := Store.no_output;
                    parsingErrors := [OUTPUT_MESSAGES_PARSING_ERROR;
                                      OUTPUT_VALUE_PARSING_ERROR] |}, st)).
Proof.
  split; [|split; [|split]].
  - intros E provider v st msgs Hmsgs.
    unfold getOutputFromAttributes. rewrite Hmsgs. unfold bind, ret.
    destruct (processAttributeMessagesToChatMessage msgs provider st)
      as [[messages st']|e]; reflexivity.
  - intros E provider v st value Hmsgs Hvalue.
    unfold getOutputFromAttributes. now rewrite Hmsgs, Hvalue.
  - intros E provider v st Hmsgs Hvalue.
    unfold getOutputFromAttributes. now rewrite Hmsgs, Hvalue.
  - exists no_attributes. reflexivity.
Qed.

Lemma getOutputFromAttributes_fallback_witness :
  getOutputFromAttributes (E := Described.env) ANTHROPIC tools_not_a_list fresh_store
  = Ok ({| data := Store.no_output;
           parsingErrors := [OUTPUT_MESSAGES_PARSING_ERROR;
                             OUTPUT_VALUE_PARSING_ERROR] |}, fresh_store).
Proof.
  destruct getOutputFromAttributes_fallback as (_ & _ & Hboth & _).
  apply (Hboth Described.env ANTHROPIC tools_not_a_list fresh_store);
    reflexivity.
Defined.

(** ** Tools *)







(** ** Reconciliation of invocation parameters *)

Lemma lower_matches_spec (n : nullable string) (key : string) :
  lower_matches n key = true <-> same_nonempty_name n key.
Proof.
  unfold lower_matches, same_nonempty_name. split.
  - destruct n as [| |s]; try discriminate.
    intros H. apply andb_prop in H. destruct H as [Hs Hkey].
    exists s. repeat split.
    + intros ->. discriminate.
    + now apply String.eqb_eq.
  - intros (s & -> & Hs & Hkey).
    apply andb_true_intro. split.
    + apply negb_true_iff. now apply String.eqb_neq.
    + now apply String.eqb_eq.
Qed.

Lemma code_named_spec (key : string) (mp : InvocationParameter) :
  code_named key mp = true <-> named_nonempty key mp.
Proof.
  unfold code_named, named_nonempty.
  rewrite orb_true_iff, !lower_matches_spec. reflexivity.
Qed.

Lemma first_named_find (key : string) (defs : list InvocationParameter) :
  first_named named_nonempty key defs (find (code_named key) defs).
Proof.
  induction defs as [|mp defs IH]; cbn [find].
  - constructor.
  - destruct (code_named key mp) eqn:Hmp.
    + apply first_named_here. now apply code_named_spec.
    + apply first_named_later; [|exact IH].
      intros Hnamed. apply code_named_spec in Hnamed. congruence.
Qed.

Lemma first_named_functional named key defs r r' :
  first_named named key defs r -> first_named named key defs r' -> r = r'.
Proof.
  intros H. revert r'.
  induction H as [|mp defs Hmp|mp defs r Hmp H IH]; intros r' H';
    inversion H'; subst; try reflexivity; try contradiction.
  now apply IH.
Qed.

Lemma first_named_is_find key defs r :
  first_named named_nonempty key defs r -> find (code_named key) defs = r.
Proof.
  intros H. symmetry.
  exact (first_named_functional _ _ _ _ _ H (first_named_find key defs)).
Qed.

Lemma transform_cons key value raw defs :
  transformInvocationParametersFromAttributesToInvocationParameterInputs
    ((key, value) :: raw) defs
  = match find (code_named key) defs with
    | None => []
    | Some mp =>
        match invocationInputField mp, invocationName mp with
        | present field, present name =>
            [ JS.literal [ ("canonicalName", of_nullable (canonicalName mp));
                           ("invocationName", VString name);
                           (toCamelCase field, value) ] ]
        | _, _ => []
        end
    end
    ++ transformInvocationParametersFromAttributesToInvocationParameterInputs
         raw defs.
Proof.
  unfold transformInvocationParametersFromAttributesToInvocationParameterInputs.
  cbn [map non_null fst snd]. fold (code_named key).
  destruct (find (code_named key) defs) as [mp|]; [|reflexivity].
  destruct (invocationInputField mp) as [| |field]; try reflexivity.
  destruct (invocationName mp) as [| |name]; reflexivity.
Qed.

(** C9, as stated, fails: the empty key of the raw map equals the invocation
    name of the definition case-insensitively, so the claim's wording emits
    an input for it; the code emits nothing. *)
Lemma reconcile_empty_name_dropped :
  reconciles named_as_stated [unnamed_definition] empty_key_map
    [ [ ("canonicalName", VNull);
        ("invocationName", VString "");
        ("valueInt", VNumber 1) ] ]
  /\ transformInvocationParametersFromAttributesToInvocationParameterInputs
       empty_key_map [unnamed_definition]
     = [].
Proof.
  split; [|reflexivity].
  apply (reconciles_emit named_as_stated [unnamed_definition]
           "" (VNumber 1) [] [] unnamed_definition "value_int" "").
  - apply first_named_here. right. exists "". split; reflexivity.
  - reflexivity.
  - reflexivity.
  - constructor.
Qed.

(** C9, amended. Reconciliation handles the entries of the raw map in order:
    an entry [(key, value)] is handled by the first definition one of whose
    names, [canonicalName] or [invocationName], is not empty and equals [key]
    case-insensitively; it is dropped when there is no such definition or
    when that definition lacks an [invocationInputField] or an
    [invocationName], and otherwise yields [{canonicalName, invocationName,
    <camelCased inputField>: value}].  So [{"temperature": 0.7}] with the
    definition [{invocationName: "temperature", inputField: "double_value"}]
    yields [{invocationName: "temperature", doubleValue: 0.7}] (with the
    [canonicalName] the definition has, here none), and a key no definition
    names yields nothing. *)
Theorem reconcile_first_named_definition :
  (forall raw defs out,
      reconciles named_nonempty defs raw out
      <-> out = transformInvocationParametersFromAttributesToInvocationParameterInputs
                  raw defs)
  /\ transformInvocationParametersFromAttributesToInvocationParameterInputs
       temperature_map [temperature_definition]
     = [ [ ("canonicalName", VUndefined);
           ("invocationName", VString "temperature");
           ("doubleValue", VNumber (7 # 10)) ] ]
  /\ transformInvocationParametersFromAttributesToInvocationParameterInputs
       unknown_param_map [temperature_definition]
     = [].
Proof.
  split; [|split; reflexivity].
  intros raw defs out. split.
  - intros H.
    induction H as [|key value raw out Hfirst H IH
                    |key value raw out mp Hfirst Hlacks H IH
                    |key value raw out mp field name Hfirst Hfield Hname H IH];
      [reflexivity| | |];
      rewrite transform_cons, (first_named_is_find _ _ _ Hfirst), <- IH.
    + reflexivity.
    + destruct Hlacks as [Hlacks|Hlacks].
      * now destruct (invocationInputField mp).
      * destruct (invocationInputField mp); try reflexivity.
        now destruct (invocationName mp).
    + now rewrite Hfield, Hname.
  - intros ->.
    induction raw as [|[key value] raw IH]; [constructor|].
    rewrite transform_cons.
    pose proof (first_named_find key defs) as Hfirst.
    destruct (find (code_named key) defs) as [mp|].
    + destruct (invocationInputField mp) as [| |field] eqn:Hfield;
        try (apply (reconciles_incomplete _ _ _ _ _ _ mp Hfirst);
             [left; now rewrite Hfield|exact IH]).
      destruct (invocationName mp) as [| |name] eqn:Hname;
        try (apply (reconciles_incomplete _ _ _ _ _ _ mp Hfirst);
             [right; now rewrite Hname|exact IH]).
      now apply reconciles_emit.
    + now apply reconciles_unmatched.
Qed.

(** ** Constraining inputs to new definitions *)

Lemma find_pointwise {A} (p q : A -> bool) (l : list A) :
  (forall x, p x = q x) -> find p l = find q l.
Proof.
  intros Hpq. induction l as [|x l IH]; cbn [find]; [reflexivity|].
  now rewrite Hpq, IH.
Qed.

Lemma set_prop_same (k : string) (o : object) :
  has_key k o = true -> set_prop k (get o k) o = o.
Proof.
  unfold has_key, get.
  induction o as [|[k' x] o IH]; cbn [lookup set_prop]; [discriminate|].
  destruct (String.eqb k k') eqn:Hk; [reflexivity|].
  intros Hkey. now rewrite IH.
Qed.

Lemma strict_eq_canonical (ip : InvocationParameterInput) (mp : InvocationParameter) :
  nullish (get ip "canonicalName") = false ->
  strict_eq (canonicalName mp) (get ip "canonicalName") = same_canonical ip mp.
Proof.
  unfold same_canonical. intros Hip. rewrite Hip.
  destruct (canonicalName mp), (get ip "canonicalName");
    try reflexivity; discriminate.
Qed.

(** C10 at an input that has no canonical name.  The input is kept because
    its invocation name [seed] is the invocation name of a definition; by the
    claim it has no canonical parameter to be renamed after and stays as it
    is, but the code renames it after the first definition that has no
    canonical name either.  On inputs that do have a canonical name the code
    does what the claim says. *)
Theorem constrain_renames_input_without_canonical_name :
  constrainInvocationParameterInputsToDefinition [seed_input] new_definitions
  = [ [ ("canonicalName", VNull);
        ("invocationName", VString "frequency_penalty");
        ("valueInt", VNumber 1) ] ]
  /\ constrain_as_claimed [seed_input] new_definitions = [seed_input]
  /\ (forall inputs definitions,
         forallb has_canonical_name inputs = true ->
         constrainInvocationParameterInputsToDefinition inputs definitions
         = constrain_as_claimed inputs definitions).
Proof.
  split; [reflexivity|split; [reflexivity|]].
  intros inputs definitions Hinputs.
  unfold constrainInvocationParameterInputsToDefinition, constrain_as_claimed.
  induction inputs as [|ip inputs IH]; [reflexivity|].
  cbn [forallb] in Hinputs. apply andb_prop in Hinputs.
  destruct Hinputs as [Hip Hinputs].
  apply andb_prop in Hip. destruct Hip as [Hcanonical Hname].
  apply negb_true_iff in Hcanonical.
  cbn [filter]. fold (kept_as_claimed definitions ip).
  unfold kept_as_claimed at 1, same_canonical at 1.
  destruct (existsb _ definitions); [|now apply IH].
  cbn [map]. rewrite (IH Hinputs). f_equal.
  unfold renamed_as_claimed.
  rewrite (find_pointwise _ (same_canonical ip) definitions
             (fun mp => strict_eq_canonical ip mp Hcanonical)).
  destruct (find (same_canonical ip) definitions) as [mp|]; [reflexivity|].
  cbn [coalesce nullish]. now apply set_prop_same.
Qed.

(* ================================================================== *)
(** * Further properties *)

(** ** Normalisation to the OpenAI dialect *)

Lemma anthropic_shape_inv (v : value) :
  anthropic_shape v = true ->
  exists o i n a,
    v = VObject o /\ get o "id" = VString i
    /\ get o "type" = VString "tool_use"
    /\ get o "name" = VString n /\ get o "input" = VObject a.
Proof.
  unfold anthropic_shape.
  destruct v as [| | | | |l|o]; try discriminate.
  cbn [prop is_object andb].
  destruct (get o "id") as [| | | |i| |] eqn:Hid; try discriminate.
  destruct (get o "type") as [| | | |t| |] eqn:Ht; try discriminate.
  cbn [is_string is_literal andb].
  destruct (String.eqb t "tool_use") eqn:Hlit; try discriminate.
  apply String.eqb_eq in Hlit. subst t.
  destruct (get o "name") as [| | | |n| |] eqn:Hn; try discriminate.
  destruct (get o "input") as [| | | | | |a] eqn:Ha; try discriminate.
  intros _. exists o, i, n, a. repeat split; assumption.
Qed.

Lemma get_app_other (declared rest : object) (k : string) :
  (forall p, In p declared -> fst p <> k) ->
  get (declared ++ rest) k = get rest k.
Proof.
  unfold get. induction declared as [|[k' x] declared IH]; intros Hk;
    cbn [app lookup]; [reflexivity|].
  destruct (String.eqb k k') eqn:Heq.
  - apply String.eqb_eq in Heq. subst k'.
    destruct (Hk (k, x) (or_introl eq_refl)). reflexivity.
  - apply IH. intros p Hp. apply Hk. now right.
Qed.

Lemma filter_none {A} (p : A -> bool) (l : list A) :
  (forall x, In x l -> p x = false) -> filter p l = [].
Proof.
  induction l as [|x l IH]; intros Hnone; cbn [filter]; [reflexivity|].
  rewrite (Hnone x (or_introl eq_refl)). apply IH.
  intros y Hy. apply Hnone. now right.
Qed.

Lemma filter_every {A} (p : A -> bool) (l : list A) :
  (forall x, In x l -> p x = true) -> filter p l = l.
Proof.
  induction l as [|x l IH]; intros Hall; cbn [filter]; [reflexivity|].
  rewrite (Hall x (or_introl eq_refl)), IH; [reflexivity|].
  intros y Hy. apply Hall. now right.
Qed.

(** Validating again what a passthrough schema returned: the declared keys
    come first and the undeclared ones are kept as they are. *)
Lemma extra_keys_after_declared (sh : Zod.Shape) (declared o : object) :
  (forall p, In p declared -> Zod.in_shape (fst p) sh = true) ->
  Zod.extra_keys sh (declared ++ Zod.extra_keys sh o) = Zod.extra_keys sh o.
Proof.
  intros Hdeclared.
  unfold Zod.extra_keys at 1. rewrite filter_app.
  rewrite filter_none, filter_every; [reflexivity| |].
  - intros p Hp.
    pose proof Hp as Hkept. unfold Zod.extra_keys in Hkept.
    apply filter_In in Hkept. destruct Hkept as [_ Hkept].
    apply andb_prop in Hkept. destruct Hkept as [Hshape Hdefined].
    rewrite Hshape. cbn [andb].
    rewrite get_app_other.
    + rewrite get_extra_keys.
      apply negb_true_iff in Hshape. now rewrite Hshape.
    + intros d Hd Heq. rewrite <- Heq, (Hdeclared d Hd) in Hshape. discriminate.
  - intros p Hp. now rewrite (Hdeclared p Hp).
Qed.

Lemma extra_keys_idempotent (sh : Zod.Shape) (o : object) :
  Zod.extra_keys sh (Zod.extra_keys sh o) = Zod.extra_keys sh o.
Proof.
  apply (extra_keys_after_declared sh [] o). intros p [].
Qed.

Lemma openai_validated_shape (v : value) :
  openai_shape v = true -> openai_shape (openai_validated v) = true.
Proof.
  intros Hv.
  destruct (openai_shape_inv _ Hv) as (o & f & i & n & a & -> & Hi & Hf & Hn & Ha).
  unfold openai_shape, openai_validated.
  cbn -[Zod.extra_keys]. rewrite Hi, Hf.
  cbn -[Zod.extra_keys]. rewrite Hn, Ha. reflexivity.
Qed.

Lemma openai_validated_idempotent (v : value) :
  openai_shape v = true ->
  openai_validated (openai_validated v) = openai_validated v.
Proof.
  intros Hv.
  destruct (openai_shape_inv _ Hv) as (o & f & i & n & a & -> & Hi & Hf & Hn & Ha).
  unfold openai_validated.
  cbn -[Zod.extra_keys]. rewrite Hf.
  cbn -[Zod.extra_keys].
  pose proof (extra_keys_after_declared
                [("name", Zod.string_); ("arguments", Zod.record Zod.unknown)]
                [("name", get f "name"); ("arguments", get f "arguments")] f)
    as Hagain.
  cbn [app] in Hagain. rewrite Hagain; [reflexivity|].
  intros p [<-|[<-|[]]]; reflexivity.
Qed.

Lemma anthropic_validated_prop (v : value) (k : string) :
  is_object v = true -> prop (anthropic_validated v) k = prop v k.
Proof.
  destruct v as [| | | | |l|o]; try discriminate. intros _.
  unfold anthropic_validated. cbn -[Zod.extra_keys].
  rewrite !get_cons.
  destruct (String.eqb k "id") eqn:H1.
  { apply String.eqb_eq in H1. now subst k. }
  destruct (String.eqb k "type") eqn:H2.
  { apply String.eqb_eq in H2. now subst k. }
  destruct (String.eqb k "name") eqn:H3.
  { apply String.eqb_eq in H3. now subst k. }
  destruct (String.eqb k "input") eqn:H4.
  { apply String.eqb_eq in H4. now subst k. }
  apply get_declared_or_extra. cbn. now rewrite H1, H2, H3, H4.
Qed.

Lemma anthropic_validated_shapes (v : value) :
  is_object v = true ->
  openai_shape (anthropic_validated v) = openai_shape v
  /\ anthropic_shape (anthropic_validated v) = anthropic_shape v.
Proof.
  intros Hv. unfold openai_shape, anthropic_shape.
  rewrite !anthropic_validated_prop by assumption.
  rewrite Hv. split; reflexivity.
Qed.

Lemma anthropic_validated_idempotent (v : value) :
  is_object v = true ->
  anthropic_validated (anthropic_validated v) = anthropic_validated v.
Proof.
  destruct v as [| | | | |l|o]; try discriminate. intros _.
  unfold anthropic_validated.
  cbn -[Zod.extra_keys].
  pose proof (extra_keys_after_declared
                [ ("id", Zod.string_); ("type", Zod.literal "tool_use");
                  ("name", Zod.string_); ("input", Zod.record Zod.unknown) ]
                [ ("id", get o "id"); ("type", get o "type");
                  ("name", get o "name"); ("input", get o "input") ] o)
    as Hagain.
  cbn [app] in Hagain. rewrite Hagain; [reflexivity|].
  intros p [<-|[<-|[<-|[<-|[]]]]]; reflexivity.
Qed.

Lemma toOpenAIToolCall_as_openai (v : value) :
  toOpenAIToolCall v = Ok (as_openai v).
Proof.
  unfold toOpenAIToolCall, detectToolCallProvider, as_openai.
  rewrite openAIToolCallSchema_shape, anthropicToolCallSchema_shape.
  destruct (openai_shape v) eqn:Ho; [reflexivity|].
  destruct (anthropic_shape v) eqn:Ha; [|reflexivity].
  cbn [provider validatedToolCall validated_value].
  unfold Zod.parse, anthropicToolCallToOpenAI, Zod.transform.
  rewrite anthropicToolCallSchema_shape.
  destruct (anthropic_shape_inv _ Ha) as (o & i & n & a & -> & Hi & Ht & Hn & Hinput).
  destruct (anthropic_validated_shapes (VObject o) eq_refl) as [_ ->].
  rewrite Ha. cbn [option_map].
  rewrite anthropic_validated_idempotent by reflexivity.
  unfold anthropic_as_openai.
  now rewrite !anthropic_validated_prop by reflexivity.
Qed.

Lemma fromOpenAIToolCall_anthropic_eq (v : value) :
  fromOpenAIToolCall v ANTHROPIC
  = if openai_shape v then Ok (openai_as_anthropic v) else Throw ZodError.
Proof.
  unfold fromOpenAIToolCall, Zod.parse, openAIToolCallToAnthropic, Zod.transform.
  rewrite openAIToolCallSchema_shape.
  destruct (openai_shape v) eqn:Hv; [|reflexivity].
  destruct (openai_shape_inv _ Hv) as (o & f & i & n & a & -> & Hi & Hf & Hn & Ha).
  unfold openai_as_anthropic.
  cbn. rewrite Hf. cbn. rewrite Ha. reflexivity.
Qed.

Lemma anthropic_as_openai_fixed (v : value) :
  anthropic_shape v = true ->
  openai_shape (anthropic_as_openai v) = true
  /\ openai_validated (anthropic_as_openai v) = anthropic_as_openai v.
Proof.
  intros Ha.
  destruct (anthropic_shape_inv _ Ha) as (o & i & n & a & -> & Hi & Ht & Hn & Hinput).
  unfold anthropic_as_openai, openai_shape, openai_validated.
  cbn. rewrite Hi, Hn, Hinput. split; reflexivity.
Qed.

Lemma as_openai_fixed (v w : value) :
  as_openai v = Some w -> openai_shape w = true /\ as_openai w = Some w.
Proof.
  unfold as_openai at 1.
  destruct (openai_shape v) eqn:Ho.
  - intros [= <-]. pose proof (openai_validated_shape v Ho) as Hw.
    split; [exact Hw|]. unfold as_openai. rewrite Hw.
    now rewrite openai_validated_idempotent.
  - destruct (anthropic_shape v) eqn:Ha; [|discriminate].
    intros [= <-]. destruct (anthropic_as_openai_fixed v Ha) as [Hw Hfix].
    split; [exact Hw|]. unfold as_openai. now rewrite Hw, Hfix.
Qed.

(** X1. [toOpenAIToolCall] never throws.  It returns the validated tool call
    for a value of the OpenAI shape, the rewritten tool call for a value that
    only has the Anthropic shape, and [null] for any other value; whatever it
    returns other than [null] has the OpenAI shape and exactly the two
    top-level keys [id] and [function]. *)
Theorem toOpenAIToolCall_total (toolCall : value) :
  toOpenAIToolCall toolCall = Ok (as_openai toolCall)
  /\ (as_openai toolCall = None <-> recognised toolCall = false)
  /\ (forall openai,
         as_openai toolCall = Some openai ->
         openai_shape openai = true
         /\ map fst (properties openai) = ["id"; "function"]).
Proof.
  split; [apply toOpenAIToolCall_as_openai|split].
  - unfold as_openai, recognised.
    destruct (openai_shape toolCall), (anthropic_shape toolCall);
      cbn; split; intros; try discriminate; reflexivity.
  - intros openai Hopenai. split; [now apply (as_openai_fixed toolCall)|].
    unfold as_openai in Hopenai.
    destruct (openai_shape toolCall); [now injection Hopenai as <-|].
    destruct (anthropic_shape toolCall); [|discriminate].
    now injection Hopenai as <-.
Qed.

(** X2. Normalisation is idempotent: a tool call returned by
    [toOpenAIToolCall] is returned unchanged when given to it again. *)
Theorem toOpenAIToolCall_idempotent (toolCall openai : value) :
  toOpenAIToolCall toolCall = Ok (Some openai) ->
  toOpenAIToolCall openai = Ok (Some openai).
Proof.
  rewrite !toOpenAIToolCall_as_openai. intros [= H].
  f_equal. now apply (as_openai_fixed toolCall).
Qed.

Lemma toOpenAIToolCall_idempotent_witness :
  toOpenAIToolCall openai_with_extra_validated
  = Ok (Some openai_with_extra_validated).
Proof.
  apply (toOpenAIToolCall_idempotent openai_with_extra). reflexivity.
Defined.

(** X3. An Anthropic tool call that does not also have the OpenAI shape,
    normalised by [toOpenAIToolCall] and converted back by
    [fromOpenAIToolCall], comes back with its [id], [name] and [input], with
    [type: "tool_use"], and without any other key it had. *)
Theorem anthropic_openai_anthropic_roundtrip (toolCall : value) :
  anthropic_shape toolCall = true ->
  openai_shape toolCall = false ->
  exists openai,
    toOpenAIToolCall toolCall = Ok (Some openai)
    /\ fromOpenAIToolCall openai ANTHROPIC
       = Ok (VObject [ ("id", prop toolCall "id");
                       ("type", VString "tool_use");
                       ("name", prop toolCall "name");
                       ("input", prop toolCall "input") ]).
Proof.
  intros Ha Ho. exists (anthropic_as_openai toolCall). split.
  - rewrite toOpenAIToolCall_as_openai. unfold as_openai. now rewrite Ho, Ha.
  - rewrite fromOpenAIToolCall_anthropic_eq.
    destruct (anthropic_as_openai_fixed _ Ha) as [-> _].
    reflexivity.
Qed.

Lemma anthropic_openai_anthropic_roundtrip_witness :
  exists openai,
    toOpenAIToolCall anthropic_with_extra = Ok (Some openai)
    /\ fromOpenAIToolCall openai ANTHROPIC
       = Ok (VObject [ ("id", VString "1");
                       ("type", VString "tool_use");
                       ("name", VString "getCurrentWeather");
                       ("input", VObject [("city", VString "San Francisco")]) ]).
Proof.
  apply (anthropic_openai_anthropic_roundtrip anthropic_with_extra);
    reflexivity.
Defined.

(** X4. Whatever [fromOpenAIToolCall] returns for the Anthropic target is a
    valid Anthropic tool call: detection tags it [ANTHROPIC] and validates it
    unchanged. *)
Theorem fromOpenAIToolCall_anthropic_detected (toolCall anthropic : value) :
  fromOpenAIToolCall toolCall ANTHROPIC = Ok anthropic ->
  detectToolCallProvider anthropic
  = {| provider := ANTHROPIC; validatedToolCall := Some anthropic |}.
Proof.
  rewrite fromOpenAIToolCall_anthropic_eq.
  destruct (openai_shape toolCall) eqn:Hv; [|discriminate].
  intros [= <-].
  destruct (openai_shape_inv _ Hv) as (o & f & i & n & a & -> & Hi & Hf & Hn & Ha).
  unfold detectToolCallProvider.
  rewrite openAIToolCallSchema_shape, anthropicToolCallSchema_shape.
  unfold openai_as_anthropic. cbn. rewrite Hi, Hf. cbn. rewrite Hn, Ha.
  reflexivity.
Qed.

Lemma fromOpenAIToolCall_anthropic_detected_witness :
  detectToolCallProvider (openai_as_anthropic weather_call)
  = {| provider := ANTHROPIC;
       validatedToolCall := Some (openai_as_anthropic weather_call) |}.
Proof.
  apply (fromOpenAIToolCall_anthropic_detected weather_call). reflexivity.
Defined.

(** X5. Validation is stable: the validated tool call that detection returns
    is detected again with the same provider and validates to itself. *)
Theorem detectToolCallProvider_stable (toolCall validated : value) :
  validatedToolCall (detectToolCallProvider toolCall) = Some validated ->
  detectToolCallProvider validated
  = {| provider := provider (detectToolCallProvider toolCall);
       validatedToolCall := Some validated |}.
Proof.
  unfold detectToolCallProvider.
  rewrite !openAIToolCallSchema_shape, !anthropicToolCallSchema_shape.
  destruct (openai_shape toolCall) eqn:Ho.
  - cbn. intros [= <-].
    rewrite (openai_validated_shape _ Ho).
    now rewrite openai_validated_idempotent.
  - destruct (anthropic_shape toolCall) eqn:Ha; cbn; [|discriminate].
    intros [= <-].
    assert (Hobj : is_object toolCall = true).
    { destruct (anthropic_shape_inv _ Ha) as (o & _ & _ & _ & -> & _). reflexivity. }
    destruct (anthropic_validated_shapes toolCall Hobj) as [-> ->].
    rewrite Ho, Ha.
    now rewrite anthropic_validated_idempotent.
Qed.

Lemma detectToolCallProvider_stable_witness :
  detectToolCallProvider openai_with_extra_validated
  = {| provider := OPENAI;
       validatedToolCall := Some openai_with_extra_validated |}.
Proof.
  apply (detectToolCallProvider_stable openai_with_extra). reflexivity.
Defined.

(** ** Conversion of the tool calls of a message *)

Lemma map_result_total {A B} (f : A -> result B) (g : A -> B) (l : list A) :
  (forall x, In x l -> f x = Ok (g x)) -> map_result f l = Ok (map g l).
Proof.
  induction l as [|x l IH]; intros Hf; cbn [map_result map]; [reflexivity|].
  rewrite (Hf x (or_introl eq_refl)), IH; [reflexivity|].
  intros y Hy. apply Hf. now right.
Qed.

Lemma map_result_throws {A B} (f : A -> result B) (e : exception) (l : list A) :
  (forall x, In x l -> f x = Throw e \/ exists y, f x = Ok y) ->
  (exists x, In x l /\ f x = Throw e) ->
  map_result f l = Throw e.
Proof.
  induction l as [|x l IH]; intros Hf (z & Hz & Hthrow); [destruct Hz|].
  cbn [map_result].
  destruct (Hf x (or_introl eq_refl)) as [Hx|[y Hx]]; rewrite Hx; [reflexivity|].
  rewrite IH; [reflexivity| |].
  - intros w Hw. apply Hf. now right.
  - destruct Hz as [<-|Hz]; [congruence|]. now exists z.
Qed.

Lemma or_null_as_openai_fixed (v : value) :
  as_openai (or_null (as_openai v)) = as_openai v.
Proof.
  destruct (as_openai v) as [w|] eqn:Hv; [|reflexivity].
  now apply (as_openai_fixed v).
Qed.

Lemma convert_to_openai (l : list value) (p : Provider) :
  dialect p = OPENAI ->
  convertMessageToolCallsToProvider (Some l) p
  = Ok (Some (map (fun v => or_null (as_openai v)) l)).
Proof.
  intros Hp. unfold convertMessageToolCallsToProvider.
  rewrite (map_result_total _ (fun v => or_null (as_openai v))); [reflexivity|].
  intros v _. rewrite toOpenAIToolCall_as_openai.
  destruct p; try discriminate; reflexivity.
Qed.

(** The conversion of one tool call to the Anthropic dialect. *)
Lemma convert_one_to_anthropic (v : value) :
  match toOpenAIToolCall v with
  | Ok r => fromOpenAIToolCall (or_null r) ANTHROPIC
  | Throw e => Throw e
  end
  = match as_openai v with
    | Some w => Ok (openai_as_anthropic w)
    | None => Throw ZodError
    end.
Proof.
  rewrite toOpenAIToolCall_as_openai, fromOpenAIToolCall_anthropic_eq.
  destruct (as_openai v) as [w|] eqn:Hv; [|reflexivity].
  cbn [or_null]. now destruct (as_openai_fixed v w Hv) as [-> _].
Qed.

Lemma as_openai_recognised (v : value) :
  recognised v = true -> exists w, as_openai v = Some w.
Proof.
  unfold recognised, as_openai.
  destruct (openai_shape v); [now eexists|].
  destruct (anthropic_shape v); [now eexists|discriminate].
Qed.

Lemma as_openai_unrecognised (v : value) :
  recognised v = false -> as_openai v = None.
Proof.
  unfold recognised, as_openai.
  destruct (openai_shape v); [discriminate|].
  now destruct (anthropic_shape v).
Qed.

(** X6. Converting the tool calls of a message to the OpenAI dialect (for
    [OPENAI] and [AZURE_OPENAI] alike) never throws and keeps the number and
    order of the tool calls: a recognised tool call becomes its OpenAI form,
    any other value becomes [null]; every result that is not [null] has the
    OpenAI shape. *)
Theorem convertMessageToolCalls_to_openai (toolCalls : list value) :
  let converted := map (fun v => or_null (as_openai v)) toolCalls in
  convertMessageToolCallsToProvider (Some toolCalls) OPENAI = Ok (Some converted)
  /\ convertMessageToolCallsToProvider (Some toolCalls) AZURE_OPENAI
     = Ok (Some converted)
  /\ List.length converted = List.length toolCalls
  /\ Forall (fun w => w = VNull \/ openai_shape w = true) converted.
Proof.
  cbv zeta. split; [|split; [|split]].
  - now apply convert_to_openai.
  - now apply convert_to_openai.
  - apply length_map.
  - apply Forall_forall. intros w Hw.
    apply in_map_iff in Hw. destruct Hw as (v & <- & _).
    destruct (as_openai v) as [o|] eqn:Hv; [right|now left].
    now apply (as_openai_fixed v).
Qed.

(** X7. Converting the tool calls of a message to the Anthropic dialect
    succeeds exactly when every tool call is recognised; it then keeps their
    number, and each result is a valid Anthropic tool call.  As soon as one
    value has neither shape the conversion throws, where the conversion to
    the OpenAI dialect would have put [null]. *)
Theorem convertMessageToolCalls_to_anthropic (toolCalls : list value) :
  (forallb recognised toolCalls = true ->
   exists converted,
     convertMessageToolCallsToProvider (Some toolCalls) ANTHROPIC
     = Ok (Some converted)
     /\ List.length converted = List.length toolCalls
     /\ Forall
          (fun w =>
             detectToolCallProvider w
             = {| provider := ANTHROPIC; validatedToolCall := Some w |})
          converted)
  /\ (forallb recognised toolCalls = false ->
      convertMessageToolCallsToProvider (Some toolCalls) ANTHROPIC
      = Throw ZodError).
Proof.
  split.
  - intros Hall. rewrite forallb_forall in Hall.
    exists (map (fun v => openai_as_anthropic (or_null (as_openai v))) toolCalls).
    split; [|split].
    + unfold convertMessageToolCallsToProvider.
      rewrite (map_result_total _
                 (fun v => openai_as_anthropic (or_null (as_openai v))));
        [reflexivity|].
      intros v Hv. rewrite convert_one_to_anthropic.
      destruct (as_openai_recognised v (Hall v Hv)) as [w ->]. reflexivity.
    + apply length_map.
    + apply Forall_forall. intros a Ha.
      apply in_map_iff in Ha. destruct Ha as (v & <- & Hv).
      destruct (as_openai_recognised v (Hall v Hv)) as [w Hw].
      rewrite Hw. cbn [or_null].
      destruct (as_openai_fixed v w Hw) as [Hshape _].
      pose proof (fromOpenAIToolCall_anthropic_eq w) as Hfrom.
      rewrite Hshape in Hfrom.
      destruct (openai_shape_inv _ Hshape)
        as (o & f & i & n & a & -> & Hi & Hf & Hn & Harg).
      unfold detectToolCallProvider.
      rewrite openAIToolCallSchema_shape, anthropicToolCallSchema_shape.
      unfold openai_as_anthropic. cbn. rewrite Hi, Hf. cbn. rewrite Hn, Harg.
      reflexivity.
  - intros Hsome.
    assert (Hex : exists v, In v toolCalls /\ recognised v = false).
    { induction toolCalls as [|v l IH]; [discriminate|].
      cbn [forallb] in Hsome. destruct (recognised v) eqn:Hv.
      - destruct (IH Hsome) as (z & Hz & Hbad). exists z. split; [now right|assumption].
      - exists v. split; [now left|assumption]. }
    unfold convertMessageToolCallsToProvider.
    rewrite (map_result_throws _ ZodError); [reflexivity| |].
    + intros v _. rewrite convert_one_to_anthropic.
      destruct (as_openai v); [right; now eexists|now left].
    + destruct Hex as (v & Hv & Hbad). exists v. split; [assumption|].
      rewrite convert_one_to_anthropic. now rewrite (as_openai_unrecognised v Hbad).
Qed.

Lemma convertMessageToolCalls_to_anthropic_witness :
  (exists converted,
      convertMessageToolCallsToProvider
        (Some [weather_call; anthropic_with_extra]) ANTHROPIC
      = Ok (Some converted)
      /\ List.length converted = 2%nat
      /\ Forall
           (fun w =>
              detectToolCallProvider w
              = {| provider := ANTHROPIC; validatedToolCall := Some w |})
           converted)
  /\ convertMessageToolCallsToProvider
       (Some [weather_call; text_arguments_call]) ANTHROPIC
     = Throw ZodError.
Proof.
  split.
  - apply (convertMessageToolCalls_to_anthropic
             [weather_call; anthropic_with_extra]). reflexivity.
  - apply (convertMessageToolCalls_to_anthropic
             [weather_call; text_arguments_call]). reflexivity.
Defined.

Lemma map_result_after_openai (l : list value) :
  map_result
    (fun toolCall =>
       match toOpenAIToolCall toolCall with
       | Ok r => fromOpenAIToolCall (or_null r) ANTHROPIC
       | Throw e => Throw e
       end)
    (map (fun v => or_null (as_openai v)) l)
  = map_result
      (fun toolCall =>
         match toOpenAIToolCall toolCall with
         | Ok r => fromOpenAIToolCall (or_null r) ANTHROPIC
         | Throw e => Throw e
         end)
      l.
Proof.
  induction l as [|v l IH]; [reflexivity|].
  cbn [map map_result]. rewrite !convert_one_to_anthropic.
  rewrite or_null_as_openai_fixed.
  destruct (as_openai v); [|reflexivity].
  now rewrite IH.
Qed.

(** X8. Conversions compose: converting to the OpenAI dialect and then to the
    Anthropic dialect is the same as converting to the Anthropic dialect at
    once (the same tool calls, or the same exception), and converting to the
    OpenAI dialect twice is the same as converting once. *)
Theorem convertMessageToolCalls_compose (toolCalls : list value) :
  match convertMessageToolCallsToProvider (Some toolCalls) OPENAI with
  | Ok converted => convertMessageToolCallsToProvider converted ANTHROPIC
  | Throw e => Throw e
  end
  = convertMessageToolCallsToProvider (Some toolCalls) ANTHROPIC
  /\ match convertMessageToolCallsToProvider (Some toolCalls) OPENAI with
     | Ok converted => convertMessageToolCallsToProvider converted OPENAI
     | Throw e => Throw e
     end
     = convertMessageToolCallsToProvider (Some toolCalls) OPENAI.
Proof.
  rewrite (convert_to_openai toolCalls OPENAI eq_refl). split.
  - unfold convertMessageToolCallsToProvider.
    now rewrite map_result_after_openai.
  - rewrite (convert_to_openai _ OPENAI eq_refl). do 2 f_equal.
    rewrite map_map. apply map_ext. intros v.
    now rewrite or_null_as_openai_fixed.
Qed.

(** The switch over the provider runs once per tool call, so a provider
    outside of it goes unnoticed when there is nothing to convert: with no
    tool-call list the result is [undefined] and with an empty list it is the
    empty list, for every provider; only a non-empty list makes an
    unhandled provider throw. *)
Theorem convertMessageToolCalls_unhandled_provider (provider : Provider) :
  convertMessageToolCallsToProvider None provider = Ok None
  /\ convertMessageToolCallsToProvider (Some []) provider = Ok (Some [])
  /\ (supported provider = false ->
      forall toolCall toolCalls,
        convertMessageToolCallsToProvider (Some (toolCall :: toolCalls)) provider
        = Throw Unreachable).
Proof.
  split; [reflexivity|split; [reflexivity|]].
  intros Hp toolCall toolCalls.
  destruct provider; try discriminate; reflexivity.
Qed.

(** X9. The empty tool calls that [createToolCallForProvider] makes are
    coherent with the conversion: for supported providers [p] and [q], the
    tool call created for [p] converts to the tool call created for [q]. *)
Theorem createToolCallForProvider_converts (p q : Provider) :
  supported p = true -> supported q = true ->
  exists created target,
    createToolCallForProvider p = Ok created
    /\ createToolCallForProvider q = Ok target
    /\ convertMessageToolCallsToProvider (Some [created]) q
       = Ok (Some [target]).
Proof.
  intros Hp Hq.
  destruct p; try discriminate; destruct q; try discriminate;
    eexists; eexists; repeat split; reflexivity.
Qed.

Lemma createToolCallForProvider_converts_witness :
  exists created target,
    createToolCallForProvider ANTHROPIC = Ok created
    /\ createToolCallForProvider AZURE_OPENAI = Ok target
    /\ convertMessageToolCallsToProvider (Some [created]) AZURE_OPENAI
       = Ok (Some [target]).
Proof.
  apply (createToolCallForProvider_converts ANTHROPIC AZURE_OPENAI);
    reflexivity.
Defined.

(** ** Tool calls and messages built from span attributes *)

Lemma built_openai_detected (i n : string) (a : object) :
  detectToolCallProvider
    (VObject [ ("id", VString i);
               ("function", VObject [ ("name", VString n);
                                      ("arguments", VObject a) ]) ])
  = {| provider := OPENAI;
       validatedToolCall :=
         Some (VObject [ ("id", VString i);
                         ("function", VObject [ ("name", VString n);
                                                ("arguments", VObject a) ]) ]) |}.
Proof.
  unfold detectToolCallProvider. rewrite openAIToolCallSchema_shape. reflexivity.
Qed.

Lemma built_anthropic_detected (i n : string) (a : object) :
  detectToolCallProvider
    (VObject [ ("id", VString i); ("type", VString "tool_use");
               ("name", VString n); ("input", VObject a) ])
  = {| provider := ANTHROPIC;
       validatedToolCall :=
         Some (VObject [ ("id", VString i); ("type", VString "tool_use");
                         ("name", VString n); ("input", VObject a) ]) |}.
Proof.
  unfold detectToolCallProvider.
  rewrite openAIToolCallSchema_shape, anthropicToolCallSchema_shape. reflexivity.
Qed.

Lemma mapM_cons_run {S A B} (f : A -> M S B) (x : A) (l : list A) (st : S) :
  mapM f (x :: l) st
  = match f x st with
    | Ok (y, st1) =>
        match mapM f l st1 with
        | Ok (ys, st2) => Ok (y :: ys, st2)
        | Throw e => Throw e
        end
    | Throw e => Throw e
    end.
Proof.
  cbn [mapM]. unfold bind, ret.
  destruct (f x st) as [[y st1]|e]; [|reflexivity].
  destruct (mapM f l st1) as [[ys st2]|e]; reflexivity.
Qed.

Section BuiltFromAttributes.

Context {E : Env}.

Lemma processAttributeToolCalls_no_throw toolCalls provider :
  supported provider = true ->
  exists built, processAttributeToolCalls toolCalls provider = Ok built.
Proof.
  intros Hp. unfold processAttributeToolCalls.
  destruct toolCalls as [entries|]; [|now eexists].
  match goal with
  | |- context [map_result ?f entries] =>
      assert (Hmap : exists mapped, map_result f entries = Ok mapped)
  end.
  { induction entries as [|entry entries IH]; [now eexists|].
    cbn [map_result]. destruct IH as [mapped ->].
    destruct (Attr.tool_call entry) as [tool_call|]; [|now eexists].
    destruct provider; try discriminate; now eexists. }
  destruct Hmap as [mapped ->]. now eexists.
Qed.

(** X10. For a supported provider, [processAttributeToolCalls] never throws
    and builds one tool call per entry that carries one, skipping the others;
    provided [isStringKeyedObject] only accepts objects, every tool call it
    builds is valid for the provider's dialect: detection tags it with that
    dialect and validates it unchanged. *)
Theorem processAttributeToolCalls_valid
    (entries : list Attr.ToolCallEntry) (provider : Provider) :
  supported provider = true ->
  (forall v, isStringKeyedObject v = true -> is_object v = true) ->
  exists calls,
    processAttributeToolCalls (Some entries) provider = Ok (Some calls)
    /\ List.length calls = List.length (filter has_tool_call entries)
    /\ Forall
         (fun call =>
            detectToolCallProvider call
            = {| provider := dialect provider;
                 validatedToolCall := Some call |})
         calls.
Proof.
  intros Hp Hobject. unfold processAttributeToolCalls.
  match goal with
  | |- context [map_result ?f entries] =>
      assert (Hmap : exists mapped,
                 map_result f entries = Ok mapped
                 /\ List.length (non_null mapped)
                    = List.length (filter has_tool_call entries)
                 /\ Forall
                      (fun call =>
                         detectToolCallProvider call
                         = {| provider := dialect provider;
                              validatedToolCall := Some call |})
                      (non_null mapped))
  end.
  { induction entries as [|entry entries IH].
    - exists []. repeat split. constructor.
    - cbn [map_result filter]. unfold has_tool_call at 1.
      destruct IH as (mapped & -> & Hlen & Hall).
      destruct (Attr.tool_call entry) as [tool_call|].
      + set (args :=
               match
                 match Attr.function tool_call with
                 | Some f => Attr.arguments f
                 | None => None
                 end
               with
               | Some arguments =>
                   if isStringKeyedObject (json (safelyParseJSON arguments))
                   then json (safelyParseJSON arguments)
                   else VObject []
               | None => VObject []
               end).
        assert (Hargs : exists a, args = VObject a).
        { unfold args.
          destruct (match Attr.function tool_call with
                    | Some f => Attr.arguments f
                    | None => None
                    end) as [arguments|]; [|now eexists].
          destruct (isStringKeyedObject (json (safelyParseJSON arguments)))
            eqn:Hkeyed; [|now eexists].
          apply Hobject in Hkeyed.
          destruct (json (safelyParseJSON arguments)); try discriminate.
          now eexists. }
        destruct Hargs as [a ->].
        destruct provider; try discriminate;
          (eexists; split; [reflexivity|]; cbn [non_null List.length];
           split; [now rewrite Hlen|]; constructor; [|exact Hall]).
        * apply built_openai_detected.
        * apply built_openai_detected.
        * apply built_anthropic_detected.
      + exists (None :: mapped). repeat split; assumption. }
  destruct Hmap as (mapped & -> & Hlen & Hall).
  exists (non_null mapped). repeat split; assumption.
Qed.

Lemma processAttributeMessages_run messages provider st :
  supported provider = true ->
  exists chatMessages st',
    processAttributeMessagesToChatMessage messages provider st
    = Ok (chatMessages, st')
    /\ map Store.role chatMessages
       = map (fun m => getChatRole (Attr.role (Attr.message m))) messages
    /\ map Store.content chatMessages
       = map (fun m => Attr.content (Attr.message m)) messages.
Proof.
  intros Hp. unfold processAttributeMessagesToChatMessage.
  match goal with |- context [mapM ?g messages] => set (f := g) end.
  assert (Hhead : forall m st,
             exists chatMessage st1,
               f m st = Ok (chatMessage, st1)
               /\ Store.role chatMessage = getChatRole (Attr.role (Attr.message m))
               /\ Store.content chatMessage = Attr.content (Attr.message m)).
  { intros m st0. unfold f, bind, perform, lift, ret.
    destruct (generateMessageId st0) as [id st1].
    destruct (processAttributeToolCalls_no_throw
                (Attr.tool_calls (Attr.message m)) provider Hp) as [built ->].
    eexists; eexists. repeat split. }
  clearbody f.
  revert st. induction messages as [|m messages IH]; intros st.
  - exists [], st. repeat split.
  - rewrite mapM_cons_run.
    destruct (Hhead m st) as (chatMessage & st1 & -> & Hrole & Hcontent).
    destruct (IH st1) as (rest & st' & -> & Hroles & Hcontents).
    eexists; eexists. split; [reflexivity|].
    cbn [map]. now rewrite Hrole, Hcontent, Hroles, Hcontents.
Qed.

End BuiltFromAttributes.

Lemma processAttributeToolCalls_valid_witness :
  exists calls,
    processAttributeToolCalls (E := Described.env) (Some sample_entries) ANTHROPIC
    = Ok (Some calls)
    /\ List.length calls = 1%nat
    /\ Forall
         (fun call =>
            detectToolCallProvider call
            = {| provider := ANTHROPIC; validatedToolCall := Some call |})
         calls.
Proof.
  apply (processAttributeToolCalls_valid (E := Described.env)
           sample_entries ANTHROPIC).
  - reflexivity.
  - intros v. now destruct v.
Defined.

(** X11. For a supported provider, building chat messages from the messages
    of a span never throws and yields one chat message per message, in
    order, whose role is the resolved role of the message and whose content
    is its content, unchanged. *)
Theorem processAttributeMessagesToChatMessage_maps
    (E : Env) (messages : list Attr.MessageSchema) (provider : Provider)
    (st : StoreState) :
  supported provider = true ->
  exists chatMessages st',
    processAttributeMessagesToChatMessage messages provider st
    = Ok (chatMessages, st')
    /\ List.length chatMessages = List.length messages
    /\ map Store.role chatMessages
       = map (fun m => getChatRole (Attr.role (Attr.message m))) messages
    /\ map Store.content chatMessages
       = map (fun m => Attr.content (Attr.message m)) messages.
Proof.
  intros Hp.
  destruct (processAttributeMessages_run messages provider st Hp)
    as (chatMessages & st' & Hrun & Hroles & Hcontents).
  exists chatMessages, st'. repeat split; try assumption.
  rewrite <- (length_map Store.role chatMessages), Hroles. apply length_map.
Qed.

Lemma processAttributeMessagesToChatMessage_maps_witness :
  exists chatMessages st',
    processAttributeMessagesToChatMessage (E := Described.env)
      sample_messages OPENAI fresh_store
    = Ok (chatMessages, st')
    /\ List.length chatMessages = 2%nat
    /\ map Store.role chatMessages = ["assistant"; "user"]
    /\ map Store.content chatMessages = [Some "hello"; None].
Proof.
  apply (processAttributeMessagesToChatMessage_maps Described.env
           sample_messages OPENAI fresh_store).
  reflexivity.
Defined.

(** ** Provider inference and role resolution *)

Lemma prefix_occurs (sub s : string) :
  String.prefix sub s = true <-> exists after, s = (sub ++ after)%string.
Proof.
  revert s. induction sub as [|c sub IH]; intros s.
  - split; [intros _; now exists s|now destruct s].
  - destruct s as [|d s]; cbn [String.prefix];
      [split; [discriminate|intros [after H]; discriminate]|].
    destruct (ascii_dec c d) as [->|Hcd].
    + rewrite IH. split; intros [after H]; exists after.
      * cbn. now rewrite H.
      * cbn in H. now injection H.
    + split; [discriminate|].
      intros [after H]. cbn in H. injection H as H _. congruence.
Qed.

Lemma includes_occurs (s sub : string) :
  includes s sub = true <-> occurs_in sub s.
Proof.
  unfold occurs_in. induction s as [|c s IH]; cbn [includes].
  - rewrite orb_false_r, prefix_occurs. split.
    + intros [after H]. now exists EmptyString, after.
    + intros (before & after & H). destruct before; [now exists after|discriminate].
  - rewrite orb_true_iff, prefix_occurs, IH. split.
    + intros [[after H]|(before & after & H)].
      * now exists EmptyString, after.
      * exists (String c before), after. cbn. now rewrite H.
    + intros (before & after & H). destruct before as [|d before].
      * left. now exists after.
      * right. cbn in H. injection H as _ H. now exists before, after.
Qed.

Lemma existsb_includes (modelName : string) (prefixes : list string) :
  existsb (fun prefix => includes modelName prefix) prefixes = true
  <-> exists prefix, In prefix prefixes /\ occurs_in prefix modelName.
Proof.
  rewrite existsb_exists. split; intros (prefix & Hin & H); exists prefix;
    (split; [assumption|]); now apply includes_occurs.
Qed.

Lemma existsb_includes_false (modelName : string) (prefixes : list string) :
  (forall prefix, In prefix prefixes -> ~ occurs_in prefix modelName) ->
  existsb (fun prefix => includes modelName prefix) prefixes = false.
Proof.
  intros Hnone.
  destruct (existsb _ prefixes) eqn:H; [|reflexivity].
  apply existsb_includes in H. destruct H as (prefix & Hin & Hocc).
  destruct (Hnone prefix Hin Hocc).
Qed.

(** X12. [getModelProviderFromModelName] answers with the provider of the
    first entry of the prefix table one of whose prefixes occurs anywhere in
    the model name (not only at its start), and with the default provider
    when no prefix of any entry occurs in it.  An entry that lists the empty
    prefix therefore captures every model name that no earlier entry
    captures. *)
Theorem getModelProviderFromModelName_first_match :
  (forall (E : Env) modelName before provider prefixes after prefix,
      modelProviderToModelPrefixMap = before ++ (provider, prefixes) :: after ->
      (forall entry p, In entry before -> In p (snd entry) ->
                       ~ occurs_in p modelName) ->
      In prefix prefixes -> occurs_in prefix modelName ->
      getModelProviderFromModelName modelName = provider)
  /\ (forall (E : Env) modelName,
         (forall entry p, In entry modelProviderToModelPrefixMap ->
                          In p (snd entry) -> ~ occurs_in p modelName) ->
         getModelProviderFromModelName modelName = DEFAULT_MODEL_PROVIDER)
  /\ (forall (E : Env) modelName before provider prefixes after,
         modelProviderToModelPrefixMap = before ++ (provider, prefixes) :: after ->
         (forall entry p, In entry before -> In p (snd entry) ->
                          ~ occurs_in p modelName) ->
         In "" prefixes ->
         getModelProviderFromModelName modelName = provider).
Proof.
  assert (Hfirst :
    forall (E : Env) modelName before provider prefixes after prefix,
      modelProviderToModelPrefixMap = before ++ (provider, prefixes) :: after ->
      (forall entry p, In entry before -> In p (snd entry) ->
                       ~ occurs_in p modelName) ->
      In prefix prefixes -> occurs_in prefix modelName ->
      getModelProviderFromModelName modelName = provider).
  { intros E modelName before provider prefixes after prefix Hmap Hbefore Hin Hocc.
    unfold getModelProviderFromModelName. rewrite Hmap.
    rewrite find_first; [reflexivity| |].
    - intros entry Hentry. apply existsb_includes_false.
      intros p Hp. now apply (Hbefore entry p).
    - apply existsb_includes. now exists prefix. }
  split; [exact Hfirst|split].
  - intros E modelName Hnone. unfold getModelProviderFromModelName.
    rewrite find_none; [reflexivity|].
    intros entry Hentry. apply existsb_includes_false.
    intros p Hp. now apply (Hnone entry p).
  - intros E modelName before provider prefixes after Hmap Hbefore Hempty.
    apply (Hfirst E modelName before provider prefixes after "" Hmap Hbefore Hempty).
    now exists EmptyString, modelName.
Qed.

Lemma getModelProviderFromModelName_first_match_witness :
  getModelProviderFromModelName (E := Described.env) "my-claude-3-opus"
  = ANTHROPIC.
Proof.
  destruct getModelProviderFromModelName_first_match as (Hfirst & _).
  apply (Hfirst Described.env "my-claude-3-opus"
           [(OPENAI, ["gpt"])] ANTHROPIC ["claude"] [] "claude").
  - reflexivity.
  - intros entry p [<-|[]] [<-|[]] Hocc.
    apply includes_occurs in Hocc. discriminate.
  - now left.
  - now exists "my-", "-3-opus".
Defined.

Lemma getChatRole_member (E : Env) (role : string) :
  Forall (fun entry => In (fst entry) chatMessageRoles) ChatRoleMap ->
  In DEFAULT_CHAT_ROLE chatMessageRoles ->
  In (getChatRole role) chatMessageRoles.
Proof.
  intros Hkeys Hdefault. unfold getChatRole, isChatMessageRole.
  destruct (list_includes chatMessageRoles role) eqn:Hrole.
  - now apply list_includes_In.
  - destruct (find _ ChatRoleMap) as [[chatRole accepted]|] eqn:Hfind;
      [|assumption].
    apply find_some in Hfind. destruct Hfind as [Hin _].
    rewrite Forall_forall in Hkeys. exact (Hkeys _ Hin).
Qed.

(** X13. Role resolution is idempotent: when the keys of the alias table and
    the default role are members of the role enum, resolving a resolved role
    gives the same role again, whatever the alias lists contain. *)
Theorem getChatRole_idempotent (E : Env) (role : string) :
  Forall (fun entry => In (fst entry) chatMessageRoles) ChatRoleMap ->
  In DEFAULT_CHAT_ROLE chatMessageRoles ->
  getChatRole (getChatRole role) = getChatRole role.
Proof.
  intros Hkeys Hdefault.
  pose proof (getChatRole_member E role Hkeys Hdefault) as Hmember.
  apply list_includes_In in Hmember.
  unfold getChatRole at 1, isChatMessageRole. now rewrite Hmember.
Qed.

Lemma getChatRole_idempotent_witness :
  getChatRole (E := Described.env) (getChatRole (E := Described.env) "ai")
  = getChatRole (E := Described.env) "ai".
Proof.
  apply (getChatRole_idempotent Described.env "ai").
  - repeat (apply Forall_cons; [cbn; auto 6|]). apply Forall_nil.
  - cbn; auto.
Defined.

(** ** The whole extraction *)

Section Extraction.

Context {E : Env}.

Lemma getTemplateMessages_run provider parsedAttributes st r st' :
  getTemplateMessagesFromAttributes provider parsedAttributes st = Ok (r, st') ->
  parsingErrors r
  = match llmInputMessageSchema parsedAttributes with
    | Some _ => []
    | None => [INPUT_MESSAGES_PARSING_ERROR]
    end.
Proof.
  unfold getTemplateMessagesFromAttributes, bind, ret.
  destruct (llmInputMessageSchema parsedAttributes) as [messages|].
  - destruct (processAttributeMessagesToChatMessage messages provider st)
      as [[chatMessages st1]|e]; [|discriminate].
    now intros [= <- _].
  - now intros [= <- _].
Qed.

Lemma getOutput_run provider parsedAttributes st r st' :
  getOutputFromAttributes provider parsedAttributes st = Ok (r, st') ->
  parsingErrors r
  = match llmOutputMessageSchema parsedAttributes with
    | Some _ => []
    | None =>
        OUTPUT_MESSAGES_PARSING_ERROR
        :: match outputSchema parsedAttributes with
           | Some _ => []
           | None => [OUTPUT_VALUE_PARSING_ERROR]
           end
    end.
Proof.
  unfold getOutputFromAttributes, bind, ret.
  destruct (llmOutputMessageSchema parsedAttributes) as [messages|].
  - destruct (processAttributeMessagesToChatMessage messages provider st)
      as [[chatMessages st1]|e]; [|discriminate].
    now intros [= <- _].
  - destruct (outputSchema parsedAttributes); now intros [= <- _].
Qed.

Lemma processAttributeTools_run (tools : option (list Attr.LlmTool)) st :
  exists built st',
    processAttributeTools tools st = Ok (built, st')
    /\ map Store.definition built
       = map Attr.json_schema (non_null (map Attr.tool (or_else tools []))).
Proof.
  unfold processAttributeTools.
  match goal with |- context [mapM ?g (or_else tools [])] => set (f := g) end.
  assert (Hmap : forall l st0,
             exists mapped st1,
               mapM f l st0 = Ok (mapped, st1)
               /\ map Store.definition (non_null mapped)
                  = map Attr.json_schema (non_null (map Attr.tool l))).
  { induction l as [|tool l IH]; intros st0.
    - exists [], st0. split; reflexivity.
    - rewrite mapM_cons_run. unfold f at 1.
      destruct (Attr.tool tool) as [t|] eqn:Htool.
      + unfold bind, perform, ret.
        destruct (generateToolId st0) as [id st1].
        destruct (IH st1) as (mapped & st2 & -> & Hdefs).
        eexists; eexists. split; [reflexivity|].
        cbn [map non_null]. rewrite Htool. cbn [map non_null Store.definition].
        now rewrite Hdefs.
      + unfold ret.
        destruct (IH st0) as (mapped & st2 & -> & Hdefs).
        eexists; eexists. split; [reflexivity|].
        cbn [map non_null]. now rewrite Htool. }
  unfold bind, ret.
  destruct (Hmap (or_else tools []) st) as (mapped & st1 & -> & Hdefs).
  now exists (non_null mapped), st1.
Qed.

Lemma getTools_run parsedAttributes st :
  exists r st',
    getToolsFromAttributes parsedAttributes st = Ok (r, st')
    /\ parsingErrors r
       = match llmToolSchema parsedAttributes with
         | Some _ => []
         | None => [TOOLS_PARSING_ERROR]
         end.
Proof.
  unfold getToolsFromAttributes.
  destruct (llmToolSchema parsedAttributes) as [[entries|]|];
    try (eexists; eexists; split; reflexivity).
  unfold bind, ret.
  destruct (processAttributeTools_run (Some entries) st)
    as (built & st' & -> & _).
  eexists; eexists; split; reflexivity.
Qed.

(** X14. [getToolsFromAttributes] never throws, and returns tools only
    together with an empty error list: when the schema yields a list of tool
    entries, the definitions of the returned tools are the [json_schema]s of
    the entries that carry a tool, in order. *)
Theorem getToolsFromAttributes_definitions
    (parsedAttributes : value) (st : StoreState) :
  exists r st',
    getToolsFromAttributes parsedAttributes st = Ok (r, st')
    /\ (forall tools, data r = Some tools -> parsingErrors r = [])
    /\ (forall entries,
           llmToolSchema parsedAttributes = Some (Some entries) ->
           exists tools,
             data r = Some tools
             /\ map Store.definition tools
                = map Attr.json_schema (non_null (map Attr.tool entries))).
Proof.
  unfold getToolsFromAttributes.
  destruct (llmToolSchema parsedAttributes) as [[entries|]|].
  - unfold bind, ret.
    destruct (processAttributeTools_run (Some entries) st)
      as (built & st' & -> & Hdefs).
    eexists; eexists. split; [reflexivity|]. split; [reflexivity|].
    intros entries' [= <-]. now exists built.
  - eexists; eexists. split; [reflexivity|].
    split; [reflexivity|discriminate].
  - eexists; eexists. split; [reflexivity|].
    split; [discriminate|discriminate].
Qed.

(** X15. Whenever [transformSpanAttributesToPlaygroundInstance] returns, the
    instance carries the id of the span, and the error list is determined by
    the attributes alone, not by the store or the provider: the single
    [SPAN_ATTRIBUTES_PARSING_ERROR] when they are not JSON, and otherwise
    one code per schema that rejects them, in the order messages, output,
    model configuration, tools, invocation parameters. *)
Theorem transformSpan_error_list
    (span : PlaygroundSpan) (st st' : StoreState)
    (r : Parsed Store.PlaygroundInstance) :
  transformSpanAttributesToPlaygroundInstance span st = Ok (r, st') ->
  Store.spanId (data r) = Some (span_id span)
  /\ parsingErrors r
     = match parseError (safelyParseJSON (attributes span)) with
       | Some _ => [SPAN_ATTRIBUTES_PARSING_ERROR]
       | None => expected_errors (json (safelyParseJSON (attributes span)))
       end.
Proof.
  unfold transformSpanAttributesToPlaygroundInstance.
  unfold bind at 1. unfold perform.
  destruct (createPlaygroundInstance st) as [base st0].
  destruct (parseError (safelyParseJSON (attributes span))) as [e|].
  - unfold ret. now intros [= <- _].
  - set (attrs := json (safelyParseJSON (attributes span))).
    unfold bind at 1.
    match goal with
    | |- context [getTemplateMessagesFromAttributes ?p attrs st0] =>
        destruct (getTemplateMessagesFromAttributes p attrs st0)
          as [[messagesResult st1]|e1] eqn:Hmessages; [|discriminate]
    end.
    unfold bind at 1.
    match goal with
    | |- context [getOutputFromAttributes ?p attrs st1] =>
        destruct (getOutputFromAttributes p attrs st1)
          as [[outputResult st2]|e2] eqn:Houtput; [|discriminate]
    end.
    unfold bind at 1.
    destruct (getTools_run attrs st2) as (toolsResult & st3 & Htools & Htoolerrors).
    rewrite Htools. unfold ret. intros [= <- _].
    cbn [data parsingErrors Store.spanId]. split; [reflexivity|].
    rewrite (getTemplateMessages_run _ _ _ _ _ Hmessages).
    rewrite (getOutput_run _ _ _ _ _ Houtput).
    rewrite Htoolerrors.
    unfold expected_errors, getBaseModelConfigFromAttributes,
      getModelInvocationParametersFromAttributes.
    destruct (modelConfigSchema attrs);
      destruct (modelConfigWithInvocationParametersSchema attrs); reflexivity.
Qed.

(** X16. When the spans, the prefix table, the default provider and the
    default instance only name supported providers,
    [transformSpanAttributesToPlaygroundInstance] never throws, whatever the
    attributes are. *)
Theorem transformSpan_never_throws (span : PlaygroundSpan) (st : StoreState) :
  Forall (fun entry => supported (fst entry) = true)
         modelProviderToModelPrefixMap ->
  supported DEFAULT_MODEL_PROVIDER = true ->
  supported (Store.provider (Store.model (fst (createPlaygroundInstance st))))
  = true ->
  exists r st',
    transformSpanAttributesToPlaygroundInstance span st = Ok (r, st').
Proof.
  intros Htable Hdefault Hbase.
  assert (Hinfer : forall modelName,
             supported (getModelProviderFromModelName modelName) = true).
  { intros modelName. unfold getModelProviderFromModelName.
    destruct (find _ modelProviderToModelPrefixMap) as [[p prefixes]|] eqn:Hfind;
      [|assumption].
    apply find_some in Hfind. destruct Hfind as [Hin _].
    rewrite Forall_forall in Htable. exact (Htable _ Hin). }
  unfold transformSpanAttributesToPlaygroundInstance.
  unfold bind at 1. unfold perform.
  destruct (createPlaygroundInstance st) as [base st0]. cbn [fst] in Hbase.
  destruct (parseError (safelyParseJSON (attributes span))) as [e|];
    [now eexists; eexists|].
  set (attrs := json (safelyParseJSON (attributes span))).
  match goal with
  | |- context [getTemplateMessagesFromAttributes ?p attrs] =>
      assert (Hp : supported p = true)
  end.
  { unfold getBaseModelConfigFromAttributes.
    destruct (modelConfigSchema attrs) as [modelName|]; cbn; [apply Hinfer|assumption]. }
  match goal with
  | |- context [getTemplateMessagesFromAttributes ?p attrs] => set (provider := p) in *
  end.
  unfold bind at 1.
  assert (Hmessages : exists messagesResult st1,
             getTemplateMessagesFromAttributes provider attrs st0
             = Ok (messagesResult, st1)).
  { unfold getTemplateMessagesFromAttributes, bind, ret.
    destruct (llmInputMessageSchema attrs) as [messages|]; [|now eexists; eexists].
    destruct (processAttributeMessages_run messages provider st0 Hp)
      as (chatMessages & st1 & -> & _).
    now eexists; eexists. }
  destruct Hmessages as (messagesResult & st1 & ->).
  unfold bind at 1.
  assert (Houtput : exists outputResult st2,
             getOutputFromAttributes provider attrs st1
             = Ok (outputResult, st2)).
  { unfold getOutputFromAttributes, bind, ret.
    destruct (llmOutputMessageSchema attrs) as [messages|].
    - destruct (processAttributeMessages_run messages provider st1 Hp)
        as (chatMessages & st2 & -> & _).
      now eexists; eexists.
    - destruct (outputSchema attrs); now eexists; eexists. }
  destruct Houtput as (outputResult & st2 & ->).
  unfold bind at 1.
  destruct (getTools_run attrs st2) as (toolsResult & st3 & -> & _).
  unfold ret. now eexists; eexists.
Qed.

(** X17. The model of the instance built from a span whose attributes are
    JSON: without a model configuration it is the model of the default
    instance, and the invocation parameters reconciled from the attributes
    are dropped; with one, it has the model name of the attributes, the
    provider inferred from that name, and the invocation parameters
    reconciled against the definitions of the span (none when the
    invocation-parameter schema rejects the attributes). *)
Theorem transformSpan_model
    (span : PlaygroundSpan) (st st' : StoreState)
    (r : Parsed Store.PlaygroundInstance) :
  parseError (safelyParseJSON (attributes span)) = None ->
  transformSpanAttributesToPlaygroundInstance span st = Ok (r, st') ->
  let attrs := json (safelyParseJSON (attributes span)) in
  Store.model (data r)
  = match modelConfigSchema attrs with
    | None => Store.model (fst (createPlaygroundInstance st))
    | Some modelName =>
        {| Store.modelName := modelName;
           Store.provider := getModelProviderFromModelName modelName;
           Store.invocationParameters :=
             match modelConfigWithInvocationParametersSchema attrs with
             | Some invocation_parameters =>
                 transformInvocationParametersFromAttributesToInvocationParameterInputs
                   invocation_parameters (span_invocationParameters span)
             | None => []
             end |}
    end.
Proof.
  intros Hjson. cbv zeta.
  unfold transformSpanAttributesToPlaygroundInstance.
  unfold bind at 1. unfold perform.
  destruct (createPlaygroundInstance st) as [base st0]. cbn [fst].
  rewrite Hjson.
  set (attrs := json (safelyParseJSON (attributes span))).
  unfold bind at 1.
  match goal with
  | |- context [getTemplateMessagesFromAttributes ?p attrs st0] =>
      destruct (getTemplateMessagesFromAttributes p attrs st0)
        as [[messagesResult st1]|e1]; [|discriminate]
  end.
  unfold bind at 1.
  match goal with
  | |- context [getOutputFromAttributes ?p attrs st1] =>
      destruct (getOutputFromAttributes p attrs st1)
        as [[outputResult st2]|e2]; [|discriminate]
  end.
  unfold bind at 1.
  destruct (getToolsFromAttributes attrs st2) as [[toolsResult st3]|e3];
    [|discriminate].
  unfold ret. intros [= <- _]. cbn [data Store.model].
  unfold getBaseModelConfigFromAttributes,
    getModelInvocationParametersFromAttributes.
  destruct (modelConfigSchema attrs) as [modelName|]; cbn; [|reflexivity].
  destruct (modelConfigWithInvocationParametersSchema attrs); reflexivity.
Qed.

End Extraction.

Lemma transformSpan_error_list_witness :
  exists r st',
    transformSpanAttributesToPlaygroundInstance (E := Described.env)
      empty_span fresh_store = Ok (r, st')
    /\ Store.spanId (data r) = Some "span-2"
    /\ parsingErrors r
       = [ INPUT_MESSAGES_PARSING_ERROR;
           OUTPUT_MESSAGES_PARSING_ERROR;
           OUTPUT_VALUE_PARSING_ERROR;
           MODEL_CONFIG_PARSING_ERROR;
           MODEL_CONFIG_WITH_INVOCATION_PARAMETERS_PARSING_ERROR ].
Proof.
  assert (Hrun : exists r st',
             transformSpanAttributesToPlaygroundInstance (E := Described.env)
               empty_span fresh_store = Ok (r, st')).
  { vm_compute. eexists; eexists; reflexivity. }
  destruct Hrun as (r & st' & Hrun).
  exists r, st'. split; [exact Hrun|].
  exact (transformSpan_error_list (E := Described.env)
           empty_span fresh_store st' r Hrun).
Defined.

Lemma transformSpan_never_throws_witness :
  exists r st',
    transformSpanAttributesToPlaygroundInstance (E := Described.env)
      empty_span fresh_store = Ok (r, st').
Proof.
  apply (transformSpan_never_throws (E := Described.env) empty_span fresh_store).
  - repeat (apply Forall_cons; [reflexivity|]). apply Forall_nil.
  - reflexivity.
  - reflexivity.
Defined.

Lemma transformSpan_model_witness :
  exists r st',
    transformSpanAttributesToPlaygroundInstance (E := Described.env)
      empty_span fresh_store = Ok (r, st')
    /\ Store.model (data r)
       = Store.model (fst (Described.createPlaygroundInstance fresh_store)).
Proof.
  assert (Hrun : exists r st',
             transformSpanAttributesToPlaygroundInstance (E := Described.env)
               empty_span fresh_store = Ok (r, st')).
  { vm_compute. eexists; eexists; reflexivity. }
  destruct Hrun as (r & st' & Hrun).
  exists r, st'. split; [exact Hrun|].
  exact (transformSpan_model (E := Described.env)
           empty_span fresh_store st' r eq_refl Hrun).
Defined.

(** ** Constraining and reconciling, further *)

Lemma get_set_prop_same (k : string) (x : value) (o : object) :
  get (set_prop k x o) k = x.
Proof.
  unfold get. induction o as [|[k' y] o IH]; cbn [set_prop lookup].
  - now rewrite String.eqb_refl.
  - destruct (String.eqb k k') eqn:Hk; cbn [lookup]; rewrite Hk; [reflexivity|].
    exact IH.
Qed.

Lemma get_set_prop_other (k k' : string) (x : value) (o : object) :
  k' <> k -> get (set_prop k x o) k' = get o k'.
Proof.
  intros Hk'. apply String.eqb_neq in Hk'.
  unfold get. induction o as [|[k0 y] o IH]; cbn [set_prop lookup].
  - now rewrite Hk'.
  - destruct (String.eqb k k0) eqn:Hk; cbn [lookup].
    + apply String.eqb_eq in Hk. subst k0. now rewrite Hk'.
    + destruct (String.eqb k' k0); [reflexivity|exact IH].
Qed.

Lemma set_prop_twice (k : string) (x y : value) (o : object) :
  set_prop k x (set_prop k y o) = set_prop k x o.
Proof.
  induction o as [|[k' z] o IH]; cbn [set_prop].
  - now rewrite String.eqb_refl.
  - destruct (String.eqb k k') eqn:Hk; cbn [set_prop]; rewrite Hk; [reflexivity|].
    now rewrite IH.
Qed.

Lemma constrain_unfold inputs definitions :
  constrainInvocationParameterInputsToDefinition inputs definitions
  = map (code_rename definitions) (filter (kept_as_claimed definitions) inputs).
Proof. reflexivity. Qed.

Lemma kept_depends_on_names definitions ip ip' :
  get ip' "invocationName" = get ip "invocationName" ->
  get ip' "canonicalName" = get ip "canonicalName" ->
  kept_as_claimed definitions ip' = kept_as_claimed definitions ip.
Proof.
  intros Hname Hcanonical. unfold kept_as_claimed, same_canonical.
  now rewrite Hname, Hcanonical.
Qed.

Lemma code_rename_canonical definitions ip :
  get (code_rename definitions ip) "canonicalName" = get ip "canonicalName".
Proof.
  unfold code_rename. now apply get_set_prop_other.
Qed.

Lemma code_rename_kept definitions ip :
  kept_as_claimed definitions ip = true ->
  kept_as_claimed definitions (code_rename definitions ip) = true.
Proof.
  intros Hkept.
  destruct (find (fun mp => strict_eq (canonicalName mp) (get ip "canonicalName"))
                 definitions) as [mp|] eqn:Hfind.
  - destruct (invocationName mp) as [| |n] eqn:Hn.
    + rewrite <- Hkept. apply kept_depends_on_names;
        [|apply code_rename_canonical].
      unfold code_rename. now rewrite get_set_prop_same, Hfind, Hn.
    + rewrite <- Hkept. apply kept_depends_on_names;
        [|apply code_rename_canonical].
      unfold code_rename. now rewrite get_set_prop_same, Hfind, Hn.
    + destruct (find_some _ _ Hfind) as [Hin _].
      unfold kept_as_claimed. apply existsb_exists. exists mp.
      split; [assumption|].
      unfold code_rename at 1. rewrite get_set_prop_same, Hfind, Hn.
      cbn. now rewrite String.eqb_refl.
  - rewrite <- Hkept. apply kept_depends_on_names;
      [|apply code_rename_canonical].
    unfold code_rename. now rewrite get_set_prop_same, Hfind.
Qed.

Lemma coalesce_twice (a b : value) :
  coalesce a (coalesce a b) = coalesce a b.
Proof.
  unfold coalesce. now destruct (nullish a).
Qed.

Lemma code_rename_name definitions ip :
  get (code_rename definitions ip) "invocationName"
  = coalesce
      match
        find (fun mp => strict_eq (canonicalName mp) (get ip "canonicalName"))
             definitions
      with
      | Some mp => of_nullable (invocationName mp)
      | None => VUndefined
      end
      (get ip "invocationName").
Proof.
  unfold code_rename. apply get_set_prop_same.
Qed.

Lemma code_rename_twice definitions ip :
  code_rename definitions (code_rename definitions ip)
  = code_rename definitions ip.
Proof.
  unfold code_rename at 1.
  rewrite code_rename_canonical, code_rename_name, coalesce_twice.
  unfold code_rename. apply set_prop_twice.
Qed.

Lemma filter_all {A} (p : A -> bool) (l : list A) :
  (forall x, In x l -> p x = true) -> filter p l = l.
Proof.
  induction l as [|x l IH]; intros Hall; cbn [filter]; [reflexivity|].
  rewrite (Hall x (or_introl eq_refl)), IH; [reflexivity|].
  intros y Hy. apply Hall. now right.
Qed.

(** X18. Constraining is idempotent: constraining the result of
    [constrainInvocationParameterInputsToDefinition] to the same definitions
    again changes nothing; every input that was kept and renamed is kept
    under its new name and is not renamed a second time. *)
Theorem constrain_idempotent
    (inputs : list InvocationParameterInput)
    (definitions : list InvocationParameter) :
  constrainInvocationParameterInputsToDefinition
    (constrainInvocationParameterInputsToDefinition inputs definitions)
    definitions
  = constrainInvocationParameterInputsToDefinition inputs definitions.
Proof.
  rewrite !constrain_unfold.
  rewrite filter_all.
  - rewrite map_map. apply map_ext. intros ip. apply code_rename_twice.
  - intros out Hout. apply in_map_iff in Hout.
    destruct Hout as (ip & <- & Hip). apply filter_In in Hip.
    now apply code_rename_kept.
Qed.

(** X19. Constraining never adds an input and never touches a field other
    than [invocationName]: every input of the result comes from an input of
    the list with all its other properties unchanged; without definitions,
    nothing is kept. *)
Theorem constrain_preserves_fields
    (inputs : list InvocationParameterInput)
    (definitions : list InvocationParameter) :
(List.length
     (constrainInvocationParameterInputsToDefinition inputs definitions)
   <= List.length inputs)%nat
  /\ (forall out,
         In out (constrainInvocationParameterInputsToDefinition inputs definitions) ->
         exists ip,
           In ip inputs
           /\ forall k, k <> "invocationName" -> get out k = get ip k)
  /\ constrainInvocationParameterInputsToDefinition inputs [] = [].
Proof.
  rewrite !constrain_unfold. split; [|split].
  - rewrite length_map. apply filter_length_le.
  - intros out Hout. apply in_map_iff in Hout.
    destruct Hout as (ip & <- & Hip). apply filter_In in Hip.
    exists ip. split; [apply Hip|].
    intros k Hk. unfold code_rename. now apply get_set_prop_other.
  - induction inputs as [|ip inputs IH]; [reflexivity|exact IH].
Qed.

Lemma literal_three (c n x : value) (field : string) :
  String.eqb field "invocationName" = false ->
  get (JS.literal [ ("canonicalName", c); ("invocationName", n); (field, x) ])
      "invocationName"
  = n.
Proof.
  intros Hfield. unfold JS.literal. cbn [fold_left fst snd].
  rewrite get_set_prop_other; [reflexivity|].
  intros Heq. rewrite <- Heq, String.eqb_refl in Hfield. discriminate.
Qed.

Lemma reconciled_kept raw definitions out :
  forallb field_spares_name definitions = true ->
  In out (transformInvocationParametersFromAttributesToInvocationParameterInputs
            raw definitions) ->
  kept_as_claimed definitions out = true.
Proof.
  intros Hspares. rewrite forallb_forall in Hspares.
  induction raw as [|[key value] raw IH]; [intros []|].
  rewrite transform_cons. intros Hout. apply in_app_or in Hout.
  destruct Hout as [Hout|Hout]; [|now apply IH].
  destruct (find (code_named key) definitions) as [mp|] eqn:Hfind; [|destruct Hout].
  destruct (find_some _ _ Hfind) as [Hin _].
  pose proof (Hspares mp Hin) as Hfield. unfold field_spares_name in Hfield.
  destruct (invocationInputField mp) as [| |field]; try (now destruct Hout).
  destruct (invocationName mp) as [| |name] eqn:Hname; try (now destruct Hout).
  destruct Hout as [<-|[]].
  unfold kept_as_claimed. apply existsb_exists. exists mp.
  split; [assumption|].
  apply negb_true_iff in Hfield.
  rewrite (literal_three _ _ _ _ Hfield), Hname. cbn.
  now rewrite String.eqb_refl.
Qed.

(** X20. Reconciliation and constraining fit together: when no definition
    has an input field that camel-cases to [invocationName], every input
    reconciled against a list of definitions is kept when constrained to the
    same definitions. *)
Theorem reconciled_inputs_survive_constrain
    (raw : object) (definitions : list InvocationParameter) :
  forallb field_spares_name definitions = true ->
  List.length
    (constrainInvocationParameterInputsToDefinition
       (transformInvocationParametersFromAttributesToInvocationParameterInputs
          raw definitions)
       definitions)
  = List.length
      (transformInvocationParametersFromAttributesToInvocationParameterInputs
         raw definitions).
Proof.
  intros Hspares. rewrite constrain_unfold, length_map.
  rewrite filter_all; [reflexivity|].
  intros out Hout. now apply (reconciled_kept raw).
Qed.

Lemma reconciled_inputs_survive_constrain_witness :
  List.length
    (constrainInvocationParameterInputsToDefinition
       (transformInvocationParametersFromAttributesToInvocationParameterInputs
          temperature_map new_definitions)
       new_definitions)
  = 1%nat.
Proof.
  exact (reconciled_inputs_survive_constrain temperature_map new_definitions
           eq_refl).
Defined.

Lemma lower_matches_lower (n : nullable string) (key key' : string) :
  toLowerCase key = toLowerCase key' ->
  lower_matches n key = lower_matches n key'.
Proof.
  intros Hkey. unfold lower_matches. now rewrite Hkey.
Qed.

(** X21. Reconciliation reads the keys of the raw map case-insensitively:
    two raw maps with the same values, whose keys are pairwise equal up to
    letter case, reconcile to the same inputs. *)
Theorem reconcile_ignores_key_case
    (raw raw' : object) (definitions : list InvocationParameter) :
  map snd raw = map snd raw' ->
  map (fun entry => toLowerCase (fst entry)) raw
  = map (fun entry => toLowerCase (fst entry)) raw' ->
  transformInvocationParametersFromAttributesToInvocationParameterInputs
    raw definitions
  = transformInvocationParametersFromAttributesToInvocationParameterInputs
      raw' definitions.
Proof.
  revert raw'. induction raw as [|[key value] raw IH];
    intros [|[key' value'] raw'] Hvalues Hkeys; try discriminate;
    [reflexivity|].
  cbn [map fst snd] in Hvalues, Hkeys.
  injection Hvalues as -> Hvalues. injection Hkeys as Hkey Hkeys.
  rewrite !transform_cons, (IH raw' Hvalues Hkeys).
  rewrite (find_pointwise (code_named key) (code_named key') definitions);
    [reflexivity|].
  intros mp. unfold code_named.
  now rewrite (lower_matches_lower _ key key' Hkey),
    (lower_matches_lower _ key key' Hkey).
Qed.

Lemma reconcile_ignores_key_case_witness :
  transformInvocationParametersFromAttributesToInvocationParameterInputs
    shouted_temperature_map [temperature_definition]
  = transformInvocationParametersFromAttributesToInvocationParameterInputs
      temperature_map [temperature_definition].
Proof.
  apply (reconcile_ignores_key_case shouted_temperature_map temperature_map);
    reflexivity.
Defined.

(** X22. The entries of the raw map are reconciled independently of each
    other: reconciling two maps one after the other gives the inputs of the
    first followed by the inputs of the second, each entry yields at most
    one input, and without definitions every entry is dropped. *)
Theorem reconcile_entrywise
    (raw raw' : object) (definitions : list InvocationParameter) :
  transformInvocationParametersFromAttributesToInvocationParameterInputs
    (raw ++ raw') definitions
  = transformInvocationParametersFromAttributesToInvocationParameterInputs
      raw definitions
    ++ transformInvocationParametersFromAttributesToInvocationParameterInputs
         raw' definitions
  /\ (List.length
        (transformInvocationParametersFromAttributesToInvocationParameterInputs
           raw definitions)
      <= List.length raw)%nat
  /\ transformInvocationParametersFromAttributesToInvocationParameterInputs
       raw []
     = [].
Proof.
  split; [|split].
  - induction raw as [|[key value] raw IH]; [reflexivity|].
    cbn [app]. rewrite !transform_cons, IH. now rewrite app_assoc.
  - induction raw as [|[key value] raw IH]; [apply le_n|].
    rewrite transform_cons, length_app.
    refine (Nat.add_le_mono _ 1 _ _ _ IH).
    destruct (find (code_named key) definitions) as [mp|]; [|apply Nat.le_0_1].
    destruct (invocationInputField mp); try apply Nat.le_0_1.
    destruct (invocationName mp); try apply Nat.le_0_1. apply le_n.
  - induction raw as [|[key value] raw IH]; [reflexivity|].
    rewrite transform_cons. exact IH.
Qed.

(** ** [toCamelCase] *)

Lemma upper_char_not_lower (c : ascii) :
  is_lower c = true ->
  is_lower (upper_char c) = false /\ Ascii.eqb (upper_char c) "_" = false.
Proof.
  destruct c as [[] [] [] [] [] [] [] []]; try discriminate; intros _;
    split; reflexivity.
Qed.

Lemma underscore_not_lower (c : ascii) :
  Ascii.eqb c "_" = true -> is_lower c = false.
Proof.
  intros Hc. apply Ascii.eqb_eq in Hc. now subst c.
Qed.

Lemma toCamelCase_head (c : ascii) (rest : string) :
  is_lower c = false ->
  exists h t, toCamelCase (String c rest) = String h t /\ is_lower h = false.
Proof.
  intros Hc. cbn [toCamelCase].
  destruct (Ascii.eqb c "_") eqn:Hunderscore; [|now eexists; eexists].
  destruct rest as [|d rest']; [now eexists; eexists|].
  destruct (is_lower d) eqn:Hd; [|now eexists; eexists].
  eexists; eexists. split; [reflexivity|].
  now apply upper_char_not_lower.
Qed.

Lemma toCamelCase_keeps_underscore (c h : ascii) (t : string) :
  Ascii.eqb c "_" = true -> is_lower h = false ->
  toCamelCase (String c (String h t)) = String c (toCamelCase (String h t)).
Proof.
  intros Hc Hh.
  change (toCamelCase (String c (String h t)))
    with (if Ascii.eqb c "_"
          then if is_lower h
               then String (upper_char h) (toCamelCase t)
               else String c (toCamelCase (String h t))
          else String c (toCamelCase (String h t))).
  now rewrite Hc, Hh.
Qed.

Lemma toCamelCase_idempotent_bounded (n : nat) (s : string) :
  (String.length s <= n)%nat -> toCamelCase (toCamelCase s) = toCamelCase s.
Proof.
  revert s. induction n as [|n IH]; intros s Hlen.
  - destruct s; [reflexivity|cbn in Hlen; lia].
  - destruct s as [|c rest]; [reflexivity|].
    cbn [String.length] in Hlen.
    cbn [toCamelCase].
    destruct (Ascii.eqb c "_") eqn:Hc.
    + destruct rest as [|d rest']; [cbn; now rewrite Hc|].
      cbn [String.length] in Hlen.
      destruct (is_lower d) eqn:Hd.
      * destruct (upper_char_not_lower d Hd) as [_ Hup].
        cbn [toCamelCase]. rewrite Hup. f_equal. apply IH. lia.
      * destruct (toCamelCase_head d rest' Hd) as (h & t & Hhead & Hh).
        assert (Hfixed : toCamelCase (toCamelCase (String d rest'))
                         = toCamelCase (String d rest')).
        { apply IH. cbn [String.length]. lia. }
        rewrite Hhead in Hfixed |- *.
        rewrite (toCamelCase_keeps_underscore c h t Hc Hh).
        now rewrite Hfixed.
    + cbn [toCamelCase]. rewrite Hc. f_equal. apply IH. lia.
Qed.

Lemma toCamelCase_length_bounded (n : nat) (s : string) :
  (String.length s <= n)%nat ->
  (String.length (toCamelCase s) <= String.length s)%nat.
Proof.
  revert s. induction n as [|n IH]; intros s Hlen.
  - destruct s; [apply le_n|cbn in Hlen; lia].
  - destruct s as [|c rest]; [apply le_n|].
    cbn [String.length] in Hlen.
    cbn [toCamelCase].
    destruct (Ascii.eqb c "_").
    + destruct rest as [|d rest']; [apply le_n|].
      cbn [String.length] in Hlen.
      destruct (is_lower d).
      * cbn [String.length].
        assert (String.length (toCamelCase rest') <= String.length rest')%nat
          by (apply IH; lia).
        lia.
      * change (String.length (String c (toCamelCase (String d rest'))))
          with (S (String.length (toCamelCase (String d rest')))).
        assert (String.length (toCamelCase (String d rest'))
                <= String.length (String d rest'))%nat
          by (apply IH; cbn [String.length]; lia).
        cbn [String.length] in *. lia.
    + cbn [String.length].
      assert (String.length (toCamelCase rest) <= String.length rest)%nat
        by (apply IH; lia).
      lia.
Qed.

(** X23. [toCamelCase] is idempotent and never lengthens its argument: what
    it returns has no underscore left in front of a lower-case letter, so
    converting a converted field name changes nothing. *)
Theorem toCamelCase_idempotent (str : string) :
  toCamelCase (toCamelCase str) = toCamelCase str
  /\ (String.length (toCamelCase str) <= String.length str)%nat.
Proof.
  split.
  - now apply (toCamelCase_idempotent_bounded (String.length str)).
  - now apply (toCamelCase_length_bounded (String.length str)).
Qed.

(** ** [formatText] *)

Lemma length_append (s t : string) :
  String.length (s ++ t) = (String.length s + String.length t)%nat.
Proof.
  induction s as [|c s IH]; cbn; [reflexivity|now rewrite IH].
Qed.

Lemma substring_start_length (n : nat) (s : string) :
  (n <= String.length s)%nat -> String.length (substring 0 n s) = n.
Proof.
  revert n. induction s as [|c s IH]; intros [|n] Hn; cbn in *;
    try reflexivity; try lia.
  rewrite IH; [reflexivity|lia].
Qed.

Lemma substring_start_prefix (n : nat) (s : string) :
  exists rest, s = (substring 0 n s ++ rest)%string.
Proof.
  revert n. induction s as [|c s IH]; intros [|n]; cbn.
  - now exists EmptyString.
  - now exists EmptyString.
  - now exists (String c s).
  - destruct (IH n) as [rest Hrest]. exists rest. now rewrite <- Hrest.
Qed.

(** X24. [formatText] with a non-negative [maxLength] returns the text
    itself when it has at most [maxLength] characters; otherwise it returns
    the first [maxLength] characters of the text followed by three dots, so
    the result has exactly [maxLength + 3] characters, which is more than
    [maxLength] and can be more than the text had. *)
Theorem formatText_truncates (text : string) (maxLength : Z) :
  (0 <= maxLength)%Z ->
  ((Z.of_nat (String.length text) <= maxLength)%Z ->
   formatText text maxLength = text)
  /\ ((maxLength < Z.of_nat (String.length text))%Z ->
      exists kept rest,
        formatText text maxLength = (kept ++ "...")%string
        /\ text = (kept ++ rest)%string
        /\ Z.of_nat (String.length kept) = maxLength
        /\ Z.of_nat (String.length (formatText text maxLength))
           = (maxLength + 3)%Z).
Proof.
  intros Hmax. unfold formatText. split.
  - intros Hfits.
    destruct (Z.of_nat (String.length text) >? maxLength)%Z eqn:Hgt;
      [|reflexivity].
    apply Z.gtb_lt in Hgt. lia.
  - intros Hlong.
    destruct (Z.of_nat (String.length text) >? maxLength)%Z eqn:Hgt.
    + unfold slice_to.
      destruct (maxLength <? 0)%Z eqn:Hneg; [apply Z.ltb_lt in Hneg; lia|].
      rewrite Z.min_l by lia.
      set (kept := substring 0 (Z.to_nat maxLength) text).
      assert (Hkept : String.length kept = Z.to_nat maxLength).
      { apply substring_start_length. lia. }
      destruct (substring_start_prefix (Z.to_nat maxLength) text) as [rest Hrest].
      exists kept, rest. repeat split.
      * exact Hrest.
      * rewrite Hkept. lia.
      * rewrite length_append, Hkept. cbn. lia.
    + rewrite Z.gtb_ltb in Hgt. apply Z.ltb_ge in Hgt. lia.
Qed.

Lemma formatText_truncates_witness :
  formatText "San Francisco" 20 = "San Francisco"
  /\ exists kept rest,
       formatText "San Francisco" 3 = (kept ++ "...")%string
       /\ "San Francisco" = (kept ++ rest)%string
       /\ Z.of_nat (String.length kept) = 3%Z
       /\ Z.of_nat (String.length (formatText "San Francisco" 3)) = 6%Z.
Proof.
  split.
  - apply (formatText_truncates "San Francisco" 20); cbn; lia.
  - apply (formatText_truncates "San Francisco" 3); cbn; lia.
Defined.

(** ** Template variables *)

Lemma set_add_In (variables : list string) (variable x : string) :
  In x (set_add variables variable) <-> In x variables \/ x = variable.
Proof.
  unfold set_add.
  destruct (list_includes variables variable) eqn:Hin.
  - apply list_includes_In in Hin. split; [now left|].
    intros [H| ->]; assumption.
  - rewrite in_app_iff. cbn. split.
    + intros [H|[H|[]]]; [now left|now right].
    + intros [H| ->]; [now left|right; now left].
Qed.

Lemma set_add_NoDup (variables : list string) (variable : string) :
  NoDup variables -> NoDup (set_add variables variable).
Proof.
  intros Hnodup. unfold set_add.
  destruct (list_includes variables variable) eqn:Hin; [assumption|].
  apply list_includes_not_In in Hin.
  apply NoDup_app; [assumption|repeat constructor; intros []| ].
  intros x Hx [<-|[]]. contradiction.
Qed.

Lemma add_each_In (extracted variables : list string) (x : string) :
  In x (add_each variables extracted) <-> In x variables \/ In x extracted.
Proof.
  unfold add_each. revert variables.
  induction extracted as [|v extracted IH]; intros variables; cbn [fold_left].
  - split; [now left|now intros [H|[]]].
  - rewrite IH, set_add_In. cbn [In]. split.
    + intros [[H|H]|H]; auto.
    + intros [H|[H|H]]; auto.
Qed.

Lemma add_each_NoDup (extracted variables : list string) :
  NoDup variables -> NoDup (add_each variables extracted).
Proof.
  unfold add_each. revert variables.
  induction extracted as [|v extracted IH]; intros variables Hnodup;
    cbn [fold_left]; [assumption|].
  apply IH. now apply set_add_NoDup.
Qed.

Section CollectedVariables.

Variable extractVariables : string -> list string.


Lemma messages_In (messages : list Store.ChatMessage) variables x :
  In x (fold_left (message_step extractVariables) messages variables)
  <-> In x variables
      \/ exists content,
           In content (template_texts (chat_instance messages))
           /\ In x (extractVariables content).
Proof.
  unfold template_texts, chat_instance. cbn [Store.template].
  revert variables.
  induction messages as [|m messages IH]; intros variables;
    cbn [fold_left flat_map].
  - split; [now left|]. intros [H|(content & [] & _)]. assumption.
  - rewrite IH. unfold message_step. rewrite add_each_In. split.
    + intros [[H|H]|(content & Hc & Hx)].
      * now left.
      * right. destruct (Store.content m) as [c|]; [|destruct H].
        exists c. split; [now left|assumption].
      * right. exists content. split; [|assumption].
        apply in_or_app. now right.
    + intros [H|(content & Hc & Hx)]; [left; now left|].
      apply in_app_or in Hc. destruct Hc as [Hc|Hc].
      * left. right. destruct (Store.content m) as [c|]; [|destruct Hc].
        destruct Hc as [<-|[]]. assumption.
      * right. now exists content.
Qed.

Lemma messages_NoDup (messages : list Store.ChatMessage) variables :
  NoDup variables -> NoDup (fold_left (message_step extractVariables) messages variables).
Proof.
  revert variables.
  induction messages as [|m messages IH]; intros variables Hnodup;
    cbn [fold_left]; [assumption|].
  apply IH. unfold message_step. now apply add_each_NoDup.
Qed.

Lemma instance_step_In variables instance x :
  In x (instance_step extractVariables variables instance)
  <-> In x variables
      \/ exists text,
           In text (template_texts instance)
           /\ In x (extractVariables text).
Proof.
  unfold instance_step, template_texts.
  destruct (Store.template instance) as [messages|prompt].
  - apply messages_In.
  - rewrite add_each_In. split.
    + intros [H|H]; [now left|right]. exists prompt. split; [now left|assumption].
    + intros [H|(text & [<-|[]] & Hx)]; [now left|now right].
Qed.

Lemma instance_step_NoDup variables instance :
  NoDup variables -> NoDup (instance_step extractVariables variables instance).
Proof.
  intros Hnodup. unfold instance_step.
  destruct (Store.template instance) as [messages|prompt].
  - now apply messages_NoDup.
  - now apply add_each_NoDup.
Qed.

Lemma instances_In instances variables x :
  In x (fold_left (instance_step extractVariables) instances variables)
  <-> In x variables
      \/ exists instance text,
           In instance instances
           /\ In text (template_texts instance)
           /\ In x (extractVariables text).
Proof.
  revert variables.
  induction instances as [|i instances IH]; intros variables; cbn [fold_left].
  - split; [now left|]. intros [H|(instance & text & [] & _)]. assumption.
  - rewrite IH, instance_step_In. split.
    + intros [[H|(text & Ht & Hx)]|(instance & text & Hi & Ht & Hx)].
      * now left.
      * right. exists i, text. repeat split; [now left|assumption|assumption].
      * right. exists instance, text. repeat split; [now right|assumption|assumption].
    + intros [H|(instance & text & [<-|Hi] & Ht & Hx)].
      * left. now left.
      * left. right. now exists text.
      * right. now exists instance, text.
Qed.

Lemma instances_NoDup instances variables :
  NoDup variables -> NoDup (fold_left (instance_step extractVariables) instances variables).
Proof.
  revert variables.
  induction instances as [|i instances IH]; intros variables Hnodup;
    cbn [fold_left]; [assumption|].
  apply IH. now apply instance_step_NoDup.
Qed.

End CollectedVariables.

(** X25. [extractVariablesFromInstances] returns every variable once: the
    result has no duplicates, and a variable is in it exactly when the
    language's [extractVariables] finds it in the content of a chat message
    or in the prompt of one of the instances; messages without content
    contribute nothing. *)
Theorem extractVariablesFromInstances_collects
    (TemplateLanguage : Type)
    (getTemplateLanguageUtils : TemplateLanguage -> string -> list string)
    (instances : list Store.PlaygroundInstance)
    (templateLanguage : TemplateLanguage) :
  let variables :=
    extractVariablesFromInstances TemplateLanguage getTemplateLanguageUtils
      instances templateLanguage in
  NoDup variables
  /\ forall x,
       In x variables
       <-> exists instance text,
             In instance instances
             /\ In text (template_texts instance)
             /\ In x (getTemplateLanguageUtils templateLanguage text).
Proof.
  cbv zeta.
  change (extractVariablesFromInstances TemplateLanguage
            getTemplateLanguageUtils instances templateLanguage)
    with (fold_left (instance_step (getTemplateLanguageUtils templateLanguage))
            instances []).
  split.
  - apply instances_NoDup. constructor.
  - intros x. rewrite instances_In. split.
    + intros [[]|H]. exact H.
    + intros H. now right.
Qed.
